(** * Midpoint displacement in two dimensions

    A shallow embedding of [midpoint_displacement_2d]
    (src/midpoint_displacement_2d.py) and the verification of the
    properties its specification states about it.

    Conventions of the embedding.
    - Python integers are [Z]; [//] is floor division, which for the positive
      divisors 2 and 4 used by the source is [Z.div].
    - The heightmap is a numpy array of float64 that only ever holds
      integer-valued entries (sums, floor divisions and integer noise); its
      entries are modelled by [Z].  float64 represents and adds, halves and
      quarters integers exactly as long as no operand, sum or result exceeds
      2^53 in magnitude; [exact_float64] below delimits the inputs for which
      this is the case, and the statements about the values the function
      computes or about its outcome for an arbitrary roughness are made
      under it.  Outside this range the source rounds to float64, and for a
      roughness too large to convert to float64 it raises [OverflowError];
      the embedding does not follow it there.
    - The array is a list of rows.  A subscript [heightmap[row, col]] follows
      numpy: an index [i] with [-len <= i < 0] addresses [i + len], and an
      index outside [-len, len) raises [IndexError].
    - The [random] module is a deterministic generator: an abstract state
      with one operation [next_int lo hi] returning an integer of [lo..hi]
      and the next state.  [random.randint(a, b)] raises [ValueError] when
      [b < a].
    - The function threads the array, the deque and the generator through
      its body; they are the fields of [state], and the body is written in a
      state-and-exception monad.  Two further fields are ghost state: [cur],
      the region popped last, and [trace], the log of every subscript read,
      subscript assignment, random draw and [q.append] performed, each
      tagged with [cur].  No value computed by the program depends on them.
    - The [while] loop is [drain], which takes fuel: [None] means that the
      fuel ran out, [Some] is the outcome of the loop. *)

From Stdlib Require Import ZArith Lia List.
From stdpp Require Import base option list.
Import ListNotations.

Open Scope Z_scope.

(** ** Exceptions and outcomes *)

Inductive exn : Type :=
| TypeError
| ValueError
| IndexError.

Inductive result (A : Type) : Type :=
| Ok (a : A)
| Raise (e : exn).

Arguments Ok {A} a.
Arguments Raise {A} e.

(** ** The random source *)

Class RandomSource (G : Type) : Type := {
  next_int : Z -> Z -> G -> Z * G;
  next_int_range :
    forall lo hi g, lo <= hi -> lo <= fst (next_int lo hi g) <= hi
}.

(** ** Regions, the work items of the queue: [(x0, y0, x1, y1, roughness)] *)

Record region : Type := Region {
  x0 : Z;
  y0 : Z;
  x1 : Z;
  y1 : Z;
  roughness : Z
}.

(** ** The ghost log *)

Inductive access : Type :=
| Read (row col : Z)
| Write (row col : Z)
| Draw (lo hi v : Z)
| Enqueue (r : region).

Definition event : Type := option region * access.

(** ** The heightmap *)

Abbreviation grid := (list (list Z)).

Definition zeros (size : Z) : grid :=
  replicate (Z.to_nat size) (replicate (Z.to_nat size) 0).

(** numpy's treatment of one index against an axis of length [len]. *)
Definition norm_index (len i : Z) : option nat :=
  if (0 <=? i) && (i <? len) then Some (Z.to_nat i)
  else if (- len <=? i) && (i <? 0) then Some (Z.to_nat (i + len))
  else None.

Definition hm_get (hm : grid) (row col : Z) : option Z :=
  match norm_index (Z.of_nat (length hm)) row with
  | None => None
  | Some i =>
      match hm !! i with
      | None => None
      | Some line =>
          match norm_index (Z.of_nat (length line)) col with
          | None => None
          | Some j => line !! j
          end
      end
  end.

Definition hm_set (hm : grid) (row col v : Z) : option grid :=
  match norm_index (Z.of_nat (length hm)) row with
  | None => None
  | Some i =>
      match hm !! i with
      | None => None
      | Some line =>
          match norm_index (Z.of_nat (length line)) col with
          | None => None
          | Some j => Some (<[i := <[j := v]> line]> hm)
          end
      end
  end.

Section Engine.

Context {G : Type} `{RandomSource G}.

(** ** Program state *)

Record state : Type := State {
  heightmap : grid;
  q : list region;
  rng : G;
  cur : option region;
  trace : list event
}.

Definition log (a : access) (st : state) : state :=
  {| heightmap := heightmap st; q := q st; rng := rng st; cur := cur st;
     trace := trace st ++ [(cur st, a)] |}.

Definition with_heightmap (hm : grid) (st : state) : state :=
  {| heightmap := hm; q := q st; rng := rng st; cur := cur st;
     trace := trace st |}.

Definition with_q (l : list region) (st : state) : state :=
  {| heightmap := heightmap st; q := l; rng := rng st; cur := cur st;
     trace := trace st |}.

Definition with_rng (g : G) (st : state) : state :=
  {| heightmap := heightmap st; q := q st; rng := g; cur := cur st;
     trace := trace st |}.

Definition with_cur (o : option region) (st : state) : state :=
  {| heightmap := heightmap st; q := q st; rng := rng st; cur := o;
     trace := trace st |}.

(** ** The monad of the function body *)

Definition M (A : Type) : Type := state -> result (A * state).

Definition ret {A : Type} (a : A) : M A := fun st => Ok (a, st).

Definition bind {A B : Type} (m : M A) (k : A -> M B) : M B :=
  fun st =>
    match m st with
    | Ok (a, st') => k a st'
    | Raise e => Raise e
    end.

Definition raise {A : Type} (e : exn) : M A := fun _ => Raise e.

Notation "'let!' x ':=' m 'in' k" := (bind m (fun x => k))
  (at level 10, x name, m at level 100, k at level 200, only parsing).

(** [random.randint(lo, hi)] *)
Definition random_randint (lo hi : Z) : M Z :=
  fun st =>
    if hi <? lo then Raise ValueError
    else
      let (v, g) := next_int lo hi (rng st) in
      Ok (v, log (Draw lo hi v) (with_rng g st)).

(** [heightmap[row, col]] as an expression *)
Definition getitem (row col : Z) : M Z :=
  fun st =>
    match hm_get (heightmap st) row col with
    | Some v => Ok (v, log (Read row col) st)
    | None => Raise IndexError
    end.

(** [heightmap[row, col] = v] *)
Definition setitem (row col v : Z) : M unit :=
  fun st =>
    match hm_set (heightmap st) row col v with
    | Some hm => Ok (tt, log (Write row col) (with_heightmap hm st))
    | None => Raise IndexError
    end.

(** [q.popleft()] *)
Definition popleft : M region :=
  fun st =>
    match q st with
    | [] => Raise IndexError
    | r :: rest => Ok (r, with_cur (Some r) (with_q rest st))
    end.

(** [q.append(r)] *)
Definition append (r : region) : M unit :=
  fun st => Ok (tt, log (Enqueue r) (with_q (q st ++ [r]) st)).

(** The local function [my_randint]. *)
Definition my_randint (roughness : Z) : M Z :=
  random_randint (- roughness) roughness.

(** ** One pass through the body of the [while] loop (lines 47 to 87) *)
Definition iteration : M unit :=
  let! r := popleft in
  let cy := (y0 r + y1 r) / 2 in
  let cx := (x0 r + x1 r) / 2 in
  let! top_left := getitem (y0 r) (x0 r) in
  let! top_right := getitem (y0 r) (x1 r) in
  let! bottom_left := getitem (y1 r) (x0 r) in
  let! bottom_right := getitem (y1 r) (x1 r) in
  let! n1 := my_randint (roughness r) in
  let! _ := setitem cy (x0 r) ((top_left + bottom_left) / 2 + n1) in
  let! n2 := my_randint (roughness r) in
  let! _ := setitem cy (x1 r) ((top_right + bottom_right) / 2 + n2) in
  let! n3 := my_randint (roughness r) in
  let! _ := setitem (y0 r) cx ((top_left + top_right) / 2 + n3) in
  let! n4 := my_randint (roughness r) in
  let! _ := setitem (y1 r) cx ((bottom_left + bottom_right) / 2 + n4) in
  let! n5 := my_randint (roughness r) in
  let! _ := setitem cy cx
    ((top_left + bottom_left + top_right + bottom_right) / 4 + n5) in
  if 2 <? y1 r - y0 r then
    let roughness' := roughness r / 2 in
    let! _ := append (Region (x0 r) (y0 r) cx cy roughness') in
    let! _ := append (Region cx (y0 r) (x1 r) cy roughness') in
    let! _ := append (Region (x0 r) cy cx (y1 r) roughness') in
    append (Region cx cy (x1 r) (y1 r) roughness')
  else ret tt.

(** ** The [while len(q) != 0] loop *)
Fixpoint drain (fuel : nat) (st : state) : option (result state) :=
  match fuel with
  | O => None
  | S fuel' =>
      match q st with
      | [] => Some (Ok st)
      | _ :: _ =>
          match iteration st with
          | Ok (_, st') => drain fuel' st'
          | Raise e => Some (Raise e)
          end
      end
  end.

(** ** Lines 28 to 40: allocation, corner seeds and the root region *)

(** [size = 2**n + 1; heightmap = np.zeros((size, size))].  For a negative
    [n] Python evaluates [2**n] to a float, and numpy refuses a float as a
    dimension with a [TypeError]. *)
Definition allocate (n : Z) (g : G) : result state :=
  if n <? 0 then Raise TypeError
  else
    Ok {| heightmap := zeros (2 ^ n + 1); q := []; rng := g; cur := None;
          trace := [] |}.

Definition setup (n roughness : Z) : M unit :=
  let size := 2 ^ n + 1 in
  let! c1 := random_randint 0 256 in
  let! _ := setitem 0 0 c1 in
  let! c2 := random_randint 0 256 in
  let! _ := setitem 0 (size - 1) c2 in
  let! c3 := random_randint 0 256 in
  let! _ := setitem (size - 1) 0 c3 in
  let! c4 := random_randint 0 256 in
  let! _ := setitem (size - 1) (size - 1) c4 in
  append (Region 0 0 (size - 1) (size - 1) roughness).

(** The state at the first test of the loop condition. *)
Definition start (n roughness : Z) (g : G) : result state :=
  match allocate n g with
  | Raise e => Raise e
  | Ok st0 =>
      match setup n roughness st0 with
      | Raise e => Raise e
      | Ok (_, st) => Ok st
      end
  end.

(** The whole function, with the final state (ghost log included). *)
Definition run (fuel : nat) (n roughness : Z) (g : G)
  : option (result state) :=
  match start n roughness g with
  | Raise e => Some (Raise e)
  | Ok st => drain fuel st
  end.

(** The whole function as the caller sees it: [return heightmap]. *)
Definition midpoint_displacement_2d (fuel : nat) (n roughness : Z) (g : G)
  : option (result grid) :=
  match run fuel n roughness g with
  | None => None
  | Some (Raise e) => Some (Raise e)
  | Some (Ok st) => Some (Ok (heightmap st))
  end.

End Engine.

Arguments state G : clear implicits.

(** ** A concrete random source, driven by a list of raw numbers

    Each draw consumes one raw number [x] and returns
    [lo + x mod (hi - lo + 1)]; an exhausted list answers [lo]. *)

Definition tape_next (lo hi : Z) (g : list Z) : Z * list Z :=
  match g with
  | [] => (lo, [])
  | x :: g' => (lo + x mod (hi - lo + 1), g')
  end.

Lemma tape_next_range (lo hi : Z) (g : list Z) :
  lo <= hi -> lo <= fst (tape_next lo hi g) <= hi.
Proof.
  intros Hle. destruct g as [|x g']; simpl; [lia|].
  pose proof (Z.mod_pos_bound x (hi - lo + 1)). lia.
Qed.

#[export] Instance tape_source : RandomSource (list Z) :=
  {| next_int := tape_next; next_int_range := tape_next_range |}.

(** ** Vocabulary of the statements *)

#[export] Instance region_eq_dec : EqDecision region.
Proof. solve_decision. Defined.

#[export] Instance access_eq_dec : EqDecision access.
Proof. solve_decision. Defined.

(** The four regions a region of side greater than 2 appends, in order. *)
Definition children (r : region) : list region :=
  let cy := (y0 r + y1 r) / 2 in
  let cx := (x0 r + x1 r) / 2 in
  let roughness' := roughness r / 2 in
  [Region (x0 r) (y0 r) cx cy roughness';
   Region cx (y0 r) (x1 r) cy roughness';
   Region (x0 r) cy cx (y1 r) roughness';
   Region cx cy (x1 r) (y1 r) roughness'].

(** The cells [(row, col)] the body reads and assigns for a region, in
    program order. *)
Definition region_reads (r : region) : list (Z * Z) :=
  [(y0 r, x0 r); (y0 r, x1 r); (y1 r, x0 r); (y1 r, x1 r)].

Definition region_writes (r : region) : list (Z * Z) :=
  let cy := (y0 r + y1 r) / 2 in
  let cx := (x0 r + x1 r) / 2 in
  [(cy, x0 r); (cy, x1 r); (y0 r, cx); (y1 r, cx); (cy, cx)].

Definition region_accesses (r : region) : list event :=
  map (fun c => (Some r, Read c.1 c.2)) (region_reads r)
  ++ map (fun c => (Some r, Write c.1 c.2)) (region_writes r).

(** The log of one pass through the loop body for region [r], the five
    noise draws being [n1] to [n5]. *)
Definition block (r : region) (n1 n2 n3 n4 n5 : Z) : list event :=
  let cy := (y0 r + y1 r) / 2 in
  let cx := (x0 r + x1 r) / 2 in
  let d v := Draw (- roughness r) (roughness r) v in
  map (pair (Some r))
    ([Read (y0 r) (x0 r); Read (y0 r) (x1 r);
      Read (y1 r) (x0 r); Read (y1 r) (x1 r);
      d n1; Write cy (x0 r); d n2; Write cy (x1 r);
      d n3; Write (y0 r) cx; d n4; Write (y1 r) cx;
      d n5; Write cy cx]
     ++ (if 2 <? y1 r - y0 r then map Enqueue (children r) else [])).

(** Subscript reads and assignments of a log, the rest dropped. *)
Definition is_rw (e : event) : bool :=
  match e.2 with
  | Read _ _ | Write _ _ => true
  | _ => false
  end.

Definition rw (tr : list event) : list event := List.filter is_rw tr.

(** How many times the cell [(row, col)] is assigned in a log. *)
Definition count_writes (row col : Z) (tr : list event) : nat :=
  length (List.filter (fun e => bool_decide (e.2 = Write row col)) tr).

(** The regions processed from a queue [L] whose regions have [k] levels of
    subdivision left, in the order of the queue. *)
Fixpoint levels (k : nat) (L : list region) : list region :=
  match k with
  | O => []
  | S k' => L ++ levels k' (flat_map children L)
  end.

Definition pow2 (k : nat) : Z := 2 ^ Z.of_nat k.

(** A region of side [2^k], aligned on multiples of its side, inside the
    square [0..N] x [0..N], with a roughness [random.randint] accepts. *)
Definition good_at (N : Z) (k : nat) (r : region) : Prop :=
  x1 r - x0 r = pow2 k /\ y1 r - y0 r = pow2 k /\
  (pow2 k | x0 r) /\ (pow2 k | y0 r) /\
  0 <= x0 r /\ x1 r <= N /\ 0 <= y0 r /\ y1 r <= N /\
  0 <= roughness r.

Definition in_grid (side row col : Z) : Prop :=
  0 <= row < side /\ 0 <= col < side.

(** A [side] by [side] array. *)
Definition shape (side : Z) (hm : grid) : Prop :=
  Z.of_nat (length hm) = side /\
  forall line, In line hm -> Z.of_nat (length line) = side.

(** [hm'] is [hm] after [hm[row, col] = v]. *)
Definition stored (side : Z) (hm : grid) (row col v : Z) (hm' : grid) : Prop :=
  shape side hm' /\
  forall r c, in_grid side r c ->
    hm_get hm' r c
    = if bool_decide (r = row /\ c = col) then Some v else hm_get hm r c.

(** Enough fuel for the loop on a grid of exponent [n]. *)
Definition fuel_of (n : Z) : nat := Z.to_nat (4 ^ n).

(** The inputs for which the integers of the embedding are the floats of
    the source.  In a run with exponent [n] and roughness [rho >= 0] the
    seeds lie in [0..256] and each of the [max 1 n] levels of subdivision
    moves a cell by at most [rho] away from an average of cells, so every
    cell stays between [-(max 1 n * rho)] and [256 + max 1 n * rho]; the
    body adds at most four cells before it divides.  Under the bound below
    every operand, sum, quotient, noise term and stored value is therefore
    an integer of magnitude at most 2^53, on which float64 arithmetic is
    exact. *)
Definition exact_float64 (n rho : Z) : Prop :=
  0 <= rho /\ 4 * (256 + Z.max 1 n * rho) <= 2 ^ 53.

(** The four corner seeds a generator state yields. *)
Definition corner_seeds {G : Type} `{RandomSource G} (g : G)
  : Z * Z * Z * Z :=
  let (c1, g1) := next_int 0 256 g in
  let (c2, g2) := next_int 0 256 g1 in
  let (c3, g3) := next_int 0 256 g2 in
  let (c4, _) := next_int 0 256 g3 in
  (c1, c2, c3, c4).

(** What one pass through the loop body does to a state whose queue is
    [r :: rest], when nothing raises: the four corner values read, the five
    noise draws, the five assignments in order, the queue and the log. *)
Definition iteration_post {G : Type} (side : Z)
    (st : state G) (r : region) (rest : list region) (st' : state G) : Prop :=
  exists tl tr bl br n1 n2 n3 n4 n5 hm1 hm2 hm3 hm4,
    let cy := (y0 r + y1 r) / 2 in
    let cx := (x0 r + x1 r) / 2 in
    (hm_get (heightmap st) (y0 r) (x0 r) = Some tl /\
     hm_get (heightmap st) (y0 r) (x1 r) = Some tr /\
     hm_get (heightmap st) (y1 r) (x0 r) = Some bl /\
     hm_get (heightmap st) (y1 r) (x1 r) = Some br) /\
    (- roughness r <= n1 <= roughness r /\
     - roughness r <= n2 <= roughness r /\
     - roughness r <= n3 <= roughness r /\
     - roughness r <= n4 <= roughness r /\
     - roughness r <= n5 <= roughness r) /\
    (stored side (heightmap st) cy (x0 r) ((tl + bl) / 2 + n1) hm1 /\
     stored side hm1 cy (x1 r) ((tr + br) / 2 + n2) hm2 /\
     stored side hm2 (y0 r) cx ((tl + tr) / 2 + n3) hm3 /\
     stored side hm3 (y1 r) cx ((bl + br) / 2 + n4) hm4 /\
     stored side hm4 cy cx ((tl + bl + tr + br) / 4 + n5) (heightmap st')) /\
    q st' = rest ++ (if 2 <? y1 r - y0 r then children r else []) /\
    cur st' = Some r /\
    trace st' = trace st ++ block r n1 n2 n3 n4 n5.

(** The log of lines 32 to 40, the corner seeds being [c1] to [c4]. *)
Definition seed_log (n rho c1 c2 c3 c4 : Z) : list event :=
  map (pair None)
    [Draw 0 256 c1; Write 0 0;
     Draw 0 256 c2; Write 0 (2 ^ n);
     Draw 0 256 c3; Write (2 ^ n) 0;
     Draw 0 256 c4; Write (2 ^ n) (2 ^ n);
     Enqueue (Region 0 0 (2 ^ n) (2 ^ n) rho)].

(** The state at the first test of the loop condition. *)
Definition start_post {G : Type} `{RandomSource G}
    (n rho : Z) (g : G) (st0 : state G) : Prop :=
  exists c1 c2 c3 c4 hm1 hm2 hm3,
    corner_seeds g = (c1, c2, c3, c4) /\
    (0 <= c1 <= 256 /\ 0 <= c2 <= 256 /\ 0 <= c3 <= 256 /\ 0 <= c4 <= 256) /\
    (stored (2 ^ n + 1) (zeros (2 ^ n + 1)) 0 0 c1 hm1 /\
     stored (2 ^ n + 1) hm1 0 (2 ^ n) c2 hm2 /\
     stored (2 ^ n + 1) hm2 (2 ^ n) 0 c3 hm3 /\
     stored (2 ^ n + 1) hm3 (2 ^ n) (2 ^ n) c4 (heightmap st0)) /\
    q st0 = [Region 0 0 (2 ^ n) (2 ^ n) rho] /\
    trace st0 = seed_log n rho c1 c2 c3 c4.

(** The passes of the loop from one test of the loop condition to a later
    one.  A region of side [2^(k+1)] is at level [k]; the passes recorded
    here treat regions of levels between [lo] and [hi], never going back to
    a coarser level. *)
Inductive steps {G : Type} `{RandomSource G} (n : Z) (lo : nat)
  : nat -> state G -> state G -> Prop :=
| steps_refl hi st : (lo <= hi)%nat -> steps n lo hi st st
| steps_step hi k st r rest st1 st2 :
    (k <= hi)%nat ->
    q st = r :: rest ->
    good_at (2 ^ n) (S k) r ->
    shape (2 ^ n + 1) (heightmap st) ->
    iteration st = Ok (tt, st1) ->
    iteration_post (2 ^ n + 1) st r rest st1 ->
    steps n lo k st1 st2 ->
    steps n lo hi st st2.


(** The four corner cells of the grid of exponent [n]. *)
Definition grid_corner (n row col : Z) : Prop :=
  (row = 0 \/ row = 2 ^ n) /\ (col = 0 \/ col = 2 ^ n).

(** What the specification asks of a region [c] appended to the queue
    while [o] was being processed ([None]: before the loop). *)
Definition enqueue_ok (n rho : Z) (o : option region) (c : region) : Prop :=
  x1 c - x0 c = y1 c - y0 c /\
  (exists k : nat, x1 c - x0 c = pow2 k) /\
  match o with
  | None => c = Region 0 0 (2 ^ n) (2 ^ n) rho
  | Some p =>
      2 * (x1 c - x0 c) = x1 p - x0 p /\
      x1 c - x0 c < x1 p - x0 p /\
      roughness c = roughness p / 2
  end.

(** Both coordinates of a cell are multiples of [m]. *)
Definition aligned (m row col : Z) : Prop := (m | row) /\ (m | col).


(** The claim that each cell has a single writer: every cell of the grid
    other than the four corners is assigned exactly once, and no cell is
    assigned by two different regions. *)
Definition single_writer (n : Z) (tr : list event) : Prop :=
  (forall row col,
      in_grid (2 ^ n + 1) row col -> ~ grid_corner n row col ->
      count_writes row col tr = 1%nat) /\
  (forall r1 r2 row col,
      In (Some r1, Write row col) tr -> In (Some r2, Write row col) tr ->
      r1 = r2).

(** How often the passes for a region and all the regions below it assign
    the cell [(row, col)], by the position of the cell: never outside the
    region and at its corners, once on its border, once or twice strictly
    inside (once when the region has no children). *)
Definition census (r : region) (leaf : Prop) (row col : Z) (c : nat) : Prop :=
  (row < y0 r \/ y1 r < row \/ col < x0 r \/ x1 r < col -> c = 0%nat) /\
  ((row = y0 r \/ row = y1 r) /\ (col = x0 r \/ col = x1 r) -> c = 0%nat) /\
  (y0 r <= row <= y1 r /\ x0 r <= col <= x1 r /\
   (row = y0 r \/ row = y1 r \/ col = x0 r \/ col = x1 r) /\
   ~ ((row = y0 r \/ row = y1 r) /\ (col = x0 r \/ col = x1 r)) ->
   c = 1%nat) /\
  (y0 r < row < y1 r /\ x0 r < col < x1 r ->
   (1 <= c <= 2)%nat /\ (leaf -> c = 1%nat)).

(** Region [r] is a proper square inside region [c]. *)
Definition within (c r : region) : Prop :=
  x0 c <= x0 r /\ x0 r < x1 r /\ x1 r <= x1 c /\
  y0 c <= y0 r /\ y0 r < y1 r /\ y1 r <= y1 c.

(** The cells of the two middle lines of a region with children, its centre
    and the midpoints of its edges apart. *)
Definition on_cross (r : region) (row col : Z) : Prop :=
  (row = (y0 r + y1 r) / 2 /\ x0 r < col < x1 r /\ col <> (x0 r + x1 r) / 2) \/
  (col = (x0 r + x1 r) / 2 /\ y0 r < row < y1 r /\ row <> (y0 r + y1 r) / 2).


(** ** The heightmap as an array *)

Ltac zlia := Z.div_mod_to_equations; lia.

Lemma norm_index_in (len i : Z) :
  0 <= i < len -> norm_index len i = Some (Z.to_nat i).
Proof.
  intros Hi. unfold norm_index.
  destruct (0 <=? i) eqn:E1; [|lia]. destruct (i <? len) eqn:E2; [|lia].
  reflexivity.
Qed.

Lemma shape_lookup (side : Z) (hm : grid) (i : nat) :
  shape side hm -> (Z.of_nat i < side) ->
  exists line, hm !! i = Some line /\ Z.of_nat (length line) = side.
Proof.
  intros [Hlen Hrows] Hi.
  destruct (hm !! i) as [line|] eqn:E.
  - exists line. split; [reflexivity|]. apply Hrows.
    apply list_elem_of_In. eapply list_elem_of_lookup_2. exact E.
  - apply lookup_ge_None in E. lia.
Qed.

Lemma hm_get_in (side : Z) (hm : grid) (row col : Z) :
  shape side hm -> in_grid side row col ->
  exists v, hm_get hm row col = Some v.
Proof.
  intros Hs [Hr Hc]. unfold hm_get.
  rewrite (proj1 Hs), norm_index_in by lia.
  destruct (shape_lookup side hm (Z.to_nat row) Hs) as (line & -> & Hl); [lia|].
  rewrite Hl, norm_index_in by lia.
  destruct (line !! Z.to_nat col) as [v|] eqn:E; [eauto|].
  apply lookup_ge_None in E. lia.
Qed.

Lemma hm_get_eq (side : Z) (hm : grid) (row col : Z) :
  shape side hm -> in_grid side row col ->
  hm_get hm row col = hm !! Z.to_nat row ≫= (.!! Z.to_nat col).
Proof.
  intros Hs [Hr Hc]. unfold hm_get.
  rewrite (proj1 Hs), norm_index_in by lia.
  destruct (shape_lookup side hm (Z.to_nat row) Hs) as (line & -> & Hl); [lia|].
  rewrite Hl, norm_index_in by lia. reflexivity.
Qed.

Lemma shape_insert (side : Z) (hm : grid) (i : nat) (line : list Z) :
  shape side hm -> Z.of_nat (length line) = side ->
  shape side (<[i := line]> hm).
Proof.
  intros [Hlen Hrows] Hl. split.
  - rewrite length_insert. exact Hlen.
  - intros l Hin. apply list_elem_of_In in Hin.
    apply list_elem_of_lookup in Hin as [j Hj].
    destruct (decide (i = j)) as [->|Hne].
    + destruct (decide (j < length hm)%nat) as [Hlt|Hge].
      * rewrite list_lookup_insert_eq in Hj by exact Hlt. congruence.
      * rewrite list_insert_ge in Hj by lia.
        apply Hrows, list_elem_of_In. eapply list_elem_of_lookup_2. exact Hj.
    + rewrite list_lookup_insert_ne in Hj by exact Hne.
      apply Hrows, list_elem_of_In. eapply list_elem_of_lookup_2. exact Hj.
Qed.

Lemma hm_set_in (side : Z) (hm : grid) (row col v : Z) :
  shape side hm -> in_grid side row col ->
  exists hm', hm_set hm row col v = Some hm' /\ stored side hm row col v hm'.
Proof.
  intros Hs [Hr Hc]. unfold hm_set.
  rewrite (proj1 Hs), norm_index_in by lia.
  destruct (shape_lookup side hm (Z.to_nat row) Hs) as (line & Hline & Hl); [lia|].
  rewrite Hline, Hl, norm_index_in by lia.
  eexists. split; [reflexivity|].
  assert (Hs' : shape side (<[Z.to_nat row := <[Z.to_nat col := v]> line]> hm)).
  { apply shape_insert; [exact Hs|]. rewrite length_insert. exact Hl. }
  split; [exact Hs'|].
  intros r c Hin. rewrite (hm_get_eq side) by assumption.
  rewrite (hm_get_eq side hm) by assumption.
  destruct Hin as [Hr' Hc'].
  destruct (decide (r = row)) as [->|Hne].
  - rewrite list_lookup_insert_eq by (destruct Hs; lia). simpl.
    rewrite Hline. simpl.
    destruct (decide (c = col)) as [->|Hnc].
    + rewrite bool_decide_eq_true_2 by auto.
      apply list_lookup_insert_eq. lia.
    + rewrite bool_decide_eq_false_2 by tauto.
      apply list_lookup_insert_ne. lia.
  - rewrite bool_decide_eq_false_2 by tauto.
    rewrite list_lookup_insert_ne by lia. reflexivity.
Qed.

Lemma shape_zeros (side : Z) : 0 <= side -> shape side (zeros side).
Proof.
  intros Hs. unfold zeros. split.
  - rewrite length_replicate. lia.
  - intros line Hin. apply list_elem_of_In, elem_of_replicate in Hin as [-> _].
    rewrite length_replicate. lia.
Qed.

Lemma hm_get_zeros (side row col : Z) :
  in_grid side row col -> hm_get (zeros side) row col = Some 0.
Proof.
  intros Hin. rewrite (hm_get_eq side); [|apply shape_zeros; destruct Hin; lia|exact Hin].
  destruct Hin as [Hr Hc]. unfold zeros.
  assert (E : replicate (Z.to_nat side) (replicate (Z.to_nat side) 0)
              !! Z.to_nat row = Some (replicate (Z.to_nat side) 0)).
  { apply lookup_replicate. split; [reflexivity|lia]. }
  rewrite E. simpl. apply lookup_replicate. split; [reflexivity|lia].
Qed.

(** ** One pass through the loop body *)

Section Body.

Context {G : Type} `{RandomSource G}.

Lemma stored_shape (side : Z) (hm : grid) (row col v : Z) (hm' : grid) :
  stored side hm row col v hm' -> shape side hm'.
Proof. intros [Hs _]. exact Hs. Qed.

Lemma random_randint_ok (lo hi : Z) (st : state G) :
  lo <= hi ->
  exists v g,
    next_int lo hi (rng st) = (v, g) /\ lo <= v <= hi /\
    random_randint lo hi st = Ok (v, log (Draw lo hi v) (with_rng g st)).
Proof.
  intros Hle. unfold random_randint.
  destruct (Z.ltb_spec hi lo) as [Hlt|_]; [lia|].
  pose proof (next_int_range lo hi (rng st) Hle) as Hrange.
  destruct (next_int lo hi (rng st)) as [v g]. simpl in Hrange.
  exists v, g. split_and!; [reflexivity|lia|lia|reflexivity].
Qed.

Lemma my_randint_ok (rho : Z) (st : state G) :
  0 <= rho ->
  exists v g,
    - rho <= v <= rho /\
    my_randint rho st = Ok (v, log (Draw (- rho) rho v) (with_rng g st)).
Proof.
  intros Hrho.
  destruct (random_randint_ok (- rho) rho st) as (v & g & _ & Hv & E); [lia|].
  exists v, g. split; [exact Hv|exact E].
Qed.

Lemma getitem_ok (side : Z) (row col : Z) (st : state G) :
  shape side (heightmap st) -> in_grid side row col ->
  exists v, hm_get (heightmap st) row col = Some v /\
            getitem row col st = Ok (v, log (Read row col) st).
Proof.
  intros Hs Hin. destruct (hm_get_in side _ row col Hs Hin) as [v Hv].
  exists v. split; [exact Hv|]. unfold getitem. rewrite Hv. reflexivity.
Qed.

Lemma setitem_ok (side : Z) (row col v : Z) (st : state G) :
  shape side (heightmap st) -> in_grid side row col ->
  exists hm, stored side (heightmap st) row col v hm /\
             setitem row col v st
             = Ok (tt, log (Write row col) (with_heightmap hm st)).
Proof.
  intros Hs Hin. destruct (hm_set_in side _ row col v Hs Hin) as (hm & Hset & Hst).
  exists hm. split; [exact Hst|]. unfold setitem. rewrite Hset. reflexivity.
Qed.

Lemma bind_ok {A B : Type} (m : M A) (k : A -> M B) (st st' : state G) (a : A) :
  m st = Ok (a, st') -> bind m k st = k a st'.
Proof. intros E. unfold bind. rewrite E. reflexivity. Qed.

Ltac step_get side :=
  match goal with
  | |- context [bind (getitem ?row ?col) ?k ?st] =>
      let v := fresh "v" in let Hv := fresh "Hv" in let E := fresh "E" in
      destruct (getitem_ok side row col st) as (v & Hv & E);
      [ simpl; assumption | unfold in_grid; zlia | ];
      rewrite (bind_ok _ k st _ v E); clear E; simpl in Hv
  end.

Ltac step_draw :=
  match goal with
  | |- context [bind (my_randint ?rho) ?k ?st] =>
      let v := fresh "n" in let g := fresh "g" in
      let Hv := fresh "Hn" in let E := fresh "E" in
      destruct (my_randint_ok rho st) as (v & g & Hv & E);
      [ lia | ];
      rewrite (bind_ok _ k st _ v E); clear E
  end.

Ltac step_set side :=
  match goal with
  | |- context [bind (setitem ?row ?col ?v) ?k ?st] =>
      let hm := fresh "hm" in let Hst := fresh "Hst" in let E := fresh "E" in
      destruct (setitem_ok side row col v st) as (hm & Hst & E);
      [ simpl; eauto using stored_shape | unfold in_grid; zlia | ];
      rewrite (bind_ok _ k st _ tt E); clear E; simpl in Hst
  end.

Lemma iteration_ok (side : Z) (st : state G) (r : region) (rest : list region) :
  q st = r :: rest ->
  shape side (heightmap st) ->
  0 <= x0 r <= x1 r -> x1 r < side ->
  0 <= y0 r <= y1 r -> y1 r < side ->
  0 <= roughness r ->
  exists st', iteration st = Ok (tt, st') /\ iteration_post side st r rest st'.
Proof.
  intros Hq Hs Hx Hx' Hy Hy' Hrho.
  unfold iteration.
  rewrite (bind_ok popleft _ st (with_cur (Some r) (with_q rest st)) r)
    by (unfold popleft; rewrite Hq; reflexivity).
  cbv zeta.
  do 4 step_get side.
  step_draw. step_set side.
  step_draw. step_set side.
  step_draw. step_set side.
  step_draw. step_set side.
  step_draw.
  match goal with
  | |- context [bind (setitem ?row ?col ?v) ?k ?st] =>
      destruct (setitem_ok side row col v st) as (hm3 & Hst3 & E);
      [ simpl; eauto using stored_shape | unfold in_grid; zlia | ];
      rewrite (bind_ok _ k st _ tt E); clear E; simpl in Hst3
  end.
  unfold iteration_post.
  destruct (2 <? y1 r - y0 r) eqn:Eside.
  - eexists. split; [reflexivity|].
    exists v, v0, v1, v2, n, n0, n1, n2, n3, hm, hm0, hm1, hm2.
    cbv zeta. simpl.
    split_and!; try assumption; try lia; try reflexivity.
    + rewrite <- !app_assoc. reflexivity.
    + unfold block. rewrite Eside. rewrite <- !app_assoc. reflexivity.
  - eexists. split; [reflexivity|].
    exists v, v0, v1, v2, n, n0, n1, n2, n3, hm, hm0, hm1, hm2.
    cbv zeta. simpl.
    split_and!; try assumption; try lia; try reflexivity.
    + rewrite app_nil_r. reflexivity.
    + unfold block. rewrite Eside. rewrite <- !app_assoc. reflexivity.
Qed.

Lemma iteration_negative (side : Z) (st : state G) (r : region)
    (rest : list region) :
  q st = r :: rest ->
  shape side (heightmap st) ->
  0 <= x0 r <= x1 r -> x1 r < side ->
  0 <= y0 r <= y1 r -> y1 r < side ->
  roughness r < 0 ->
  iteration st = Raise ValueError.
Proof.
  intros Hq Hs Hx Hx' Hy Hy' Hrho.
  unfold iteration.
  rewrite (bind_ok popleft _ st (with_cur (Some r) (with_q rest st)) r)
    by (unfold popleft; rewrite Hq; reflexivity).
  cbv zeta.
  do 4 step_get side.
  unfold bind at 1. unfold my_randint, random_randint.
  destruct (Z.ltb_spec (roughness r) (- roughness r)) as [_|Hge]; [reflexivity|lia].
Qed.

Ltac step_seed :=
  match goal with
  | |- context [bind (random_randint 0 256) ?k ?st] =>
      let v := fresh "c" in let g := fresh "g" in
      let Hg := fresh "Hg" in let Hv := fresh "Hc" in let E := fresh "E" in
      destruct (random_randint_ok 0 256 st) as (v & g & Hg & Hv & E);
      [ lia | ];
      rewrite (bind_ok _ k st _ v E); clear E; simpl in Hg
  end.

Lemma start_ok (n rho : Z) (g : G) :
  0 <= n ->
  exists st0, start n rho g = Ok st0 /\ start_post n rho g st0.
Proof.
  intros Hn. unfold start, allocate.
  destruct (Z.ltb_spec n 0) as [Hlt|_]; [lia|].
  assert (Hpos : 0 < 2 ^ n) by (apply Z.pow_pos_nonneg; lia).
  unfold setup. cbv zeta.
  replace (2 ^ n + 1 - 1) with (2 ^ n) by lia.
  set (side := 2 ^ n + 1) in *.
  set (st := {| heightmap := zeros side; q := []; rng := g; cur := None;
                trace := [] |}).
  assert (Hs : shape side (heightmap st)) by (apply shape_zeros; lia).
  step_seed. step_set side.
  step_seed. step_set side.
  step_seed. step_set side.
  step_seed.
  match goal with
  | |- context [bind (setitem ?row ?col ?v) ?k ?st] =>
      destruct (setitem_ok side row col v st) as (hm2 & Hst2 & E);
      [ simpl; eauto using stored_shape | unfold in_grid; zlia | ];
      rewrite (bind_ok _ k st _ tt E); clear E; simpl in Hst2
  end.
  eexists. split; [reflexivity|].
  exists c, c0, c1, c2, hm, hm0, hm1.
  split_and!; try assumption; try lia; try reflexivity.
  unfold corner_seeds. rewrite Hg, Hg0, Hg1, Hg2. reflexivity.
Qed.

End Body.

(** ** Geometry of the regions *)

Lemma pow2_S (k : nat) : pow2 (S k) = 2 * pow2 k.
Proof. unfold pow2. rewrite Nat2Z.inj_succ, Z.pow_succ_r by lia. reflexivity. Qed.

Lemma pow2_pos (k : nat) : 0 < pow2 k.
Proof. unfold pow2. apply Z.pow_pos_nonneg; lia. Qed.

Lemma pow2_of_Z (n : Z) : 0 <= n -> pow2 (Z.to_nat n) = 2 ^ n.
Proof. intros Hn. unfold pow2. rewrite Z2Nat.id by exact Hn. reflexivity. Qed.

Lemma divide_half (k : nat) (a : Z) : (pow2 (S k) | a) -> (pow2 k | a).
Proof.
  intros [c Hc]. exists (2 * c). rewrite Hc, pow2_S. ring.
Qed.

Lemma divide_plus_half (k : nat) (a : Z) :
  (pow2 (S k) | a) -> (pow2 k | a + pow2 k).
Proof.
  intros [c Hc]. exists (2 * c + 1). rewrite Hc, pow2_S. ring.
Qed.

Lemma midpoint (a b h : Z) : b - a = 2 * h -> (a + b) / 2 = a + h.
Proof. intros Hb. zlia. Qed.

Lemma good_at_bounds (N : Z) (k : nat) (r : region) :
  good_at N (S k) r ->
  0 <= x0 r /\ x0 r + 2 <= x1 r /\ x1 r <= N /\
  0 <= y0 r /\ y0 r + 2 <= y1 r /\ y1 r <= N /\ 0 <= roughness r.
Proof.
  unfold good_at. rewrite pow2_S. pose proof (pow2_pos k). lia.
Qed.

Lemma good_at_test (N : Z) (k : nat) (r : region) :
  good_at N (S k) r ->
  (2 <? y1 r - y0 r) = match k with O => false | S _ => true end.
Proof.
  intros (_ & Hy & _). rewrite Hy. destruct k as [|k].
  - reflexivity.
  - rewrite !pow2_S. pose proof (pow2_pos k). apply Z.ltb_lt. lia.
Qed.

Lemma good_at_children (N : Z) (k : nat) (r : region) :
  good_at N (S (S k)) r -> Forall (good_at N (S k)) (children r).
Proof.
  intros (Hx & Hy & Dx & Dy & Bx0 & Bx1 & By0 & By1 & Hrho).
  pose proof (pow2_pos (S k)) as Hpos.
  rewrite (pow2_S (S k)) in Hx, Hy.
  pose proof (midpoint _ _ _ Hx) as Hcx.
  pose proof (midpoint _ _ _ Hy) as Hcy.
  pose proof (divide_half _ _ Dx) as Dx1.
  pose proof (divide_half _ _ Dy) as Dy1.
  pose proof (divide_plus_half _ _ Dx) as Dx2.
  pose proof (divide_plus_half _ _ Dy) as Dy2.
  assert (Hr : 0 <= roughness r / 2) by zlia.
  unfold children. cbv zeta. rewrite Hcx, Hcy.
  repeat constructor; simpl; try assumption; lia.
Qed.

Lemma good_at_flat_children (N : Z) (k : nat) (L : list region) :
  Forall (good_at N (S (S k))) L ->
  Forall (good_at N (S k)) (flat_map children L).
Proof.
  induction 1 as [|r L Hr _ IH].
  - constructor.
  - change (flat_map children (r :: L)) with (children r ++ flat_map children L).
    apply Forall_app. split; [apply good_at_children; exact Hr|exact IH].
Qed.

Lemma good_at_root (n rho : Z) :
  1 <= n -> 0 <= rho ->
  good_at (2 ^ n) (S (Z.to_nat (n - 1))) (Region 0 0 (2 ^ n) (2 ^ n) rho).
Proof.
  intros Hn Hrho.
  assert (E : pow2 (S (Z.to_nat (n - 1))) = 2 ^ n).
  { rewrite <- (pow2_of_Z n) by lia. f_equal. lia. }
  unfold good_at. rewrite E. simpl.
  split_and!; try lia; apply Z.divide_0_r.
Qed.

(** ** The log of a pass, restricted to reads and assignments *)

Lemma rw_app (l1 l2 : list event) : rw (l1 ++ l2) = rw l1 ++ rw l2.
Proof. unfold rw. apply List.filter_app. Qed.

Lemma rw_block (r : region) (n1 n2 n3 n4 n5 : Z) :
  rw (block r n1 n2 n3 n4 n5) = region_accesses r.
Proof.
  unfold block, region_accesses, region_reads, region_writes, children.
  destruct (2 <? y1 r - y0 r); reflexivity.
Qed.

Lemma count_writes_app (row col : Z) (l1 l2 : list event) :
  count_writes row col (l1 ++ l2)
  = (count_writes row col l1 + count_writes row col l2)%nat.
Proof. unfold count_writes. rewrite List.filter_app, length_app. reflexivity. Qed.

Lemma count_writes_rw (row col : Z) (tr : list event) :
  count_writes row col (rw tr) = count_writes row col tr.
Proof.
  unfold count_writes, rw. induction tr as [|[o a] tr IH]; [reflexivity|].
  destruct a as [r c|r c|lo hi v|r]; cbn [List.filter is_rw snd].
  - rewrite bool_decide_eq_false_2 by discriminate. exact IH.
  - destruct (bool_decide (Write r c = Write row col)); simpl; rewrite IH;
      reflexivity.
  - rewrite bool_decide_eq_false_2 by discriminate. exact IH.
  - rewrite bool_decide_eq_false_2 by discriminate. exact IH.
Qed.

(** ** The loop *)

Section Loop.

Context {G : Type} `{RandomSource G}.

Lemma steps_bounds (n : Z) (lo hi : nat) (st st' : state G) :
  steps n lo hi st st' -> (lo <= hi)%nat.
Proof. induction 1; lia. Qed.

Lemma steps_raise (n : Z) (lo hi hi' : nat) (st st' : state G) :
  steps n lo hi st st' -> (hi <= hi')%nat -> steps n lo hi' st st'.
Proof.
  intros Hs Hle.
  destruct Hs as [hi st Hlo|hi k st r rest sta stb Hk Hq Hg Hsh Hit Hpost Hrest].
  - apply steps_refl. lia.
  - apply (steps_step n lo hi' k st r rest sta stb); try assumption. lia.
Qed.

Lemma steps_trans (n : Z) (lo mid hi : nat) (st1 st2 st3 : state G) :
  steps n mid hi st1 st2 -> steps n lo mid st2 st3 -> steps n lo hi st1 st3.
Proof.
  induction 1 as [hi st Hle|hi k st r rest sta stb Hk Hq Hg Hs Hit Hpost _ IH];
    intros H23.
  - eapply steps_raise; eassumption.
  - apply (steps_step n lo hi k st r rest sta st3); try assumption.
    apply IH. exact H23.
Qed.

(** Invariants of the loop: [J k] is assumed before a pass at level [k] and
    re-established after it, and survives the descent to finer levels. *)
Lemma steps_invariant (n : Z) (J : nat -> state G -> Prop) :
  (forall k k' st, (k' <= k)%nat -> J k st -> J k' st) ->
  (forall k st r rest st1,
      J k st -> q st = r :: rest -> good_at (2 ^ n) (S k) r ->
      shape (2 ^ n + 1) (heightmap st) ->
      iteration_post (2 ^ n + 1) st r rest st1 -> J k st1) ->
  forall lo hi st st', steps n lo hi st st' -> J hi st -> J lo st'.
Proof.
  intros Hmono Hstep lo hi st st' Hs.
  induction Hs as [hi st Hle|hi k st r rest sta stb Hk Hq Hg Hsh Hit Hpost _ IH];
    intros HJ.
  - eapply Hmono; eassumption.
  - apply IH. eapply Hstep; eauto.
Qed.

Lemma drain_mono (fuel : nat) :
  forall (st : state G) (o : result (state G)) (fuel' : nat),
    drain fuel st = Some o -> (fuel <= fuel')%nat -> drain fuel' st = Some o.
Proof.
  induction fuel as [|fuel IH]; intros st o fuel' Hd Hle; [discriminate|].
  destruct fuel' as [|fuel']; [lia|].
  simpl in *. destruct (q st); [exact Hd|].
  destruct (iteration st) as [[u st']|e]; [|exact Hd].
  apply IH; [exact Hd|lia].
Qed.

Lemma iteration_post_shape (side : Z) (st : state G) r rest (st' : state G) :
  iteration_post side st r rest st' -> shape side (heightmap st').
Proof.
  intros (tl & tr & bl & br & n1 & n2 & n3 & n4 & n5 & hm1 & hm2 & hm3 & hm4
          & _ & _ & (_ & _ & _ & _ & Hst) & _).
  exact (stored_shape _ _ _ _ _ _ Hst).
Qed.

Lemma iteration_post_rw (side : Z) (st : state G) r rest (st' : state G) :
  iteration_post side st r rest st' ->
  rw (trace st') = rw (trace st) ++ region_accesses r.
Proof.
  intros (tl & tr & bl & br & n1 & n2 & n3 & n4 & n5 & hm1 & hm2 & hm3 & hm4
          & _ & _ & _ & _ & _ & Htr).
  rewrite Htr, rw_app, rw_block. reflexivity.
Qed.

Lemma iteration_post_q (side : Z) (st : state G) r rest (st' : state G) :
  iteration_post side st r rest st' ->
  q st' = rest ++ (if 2 <? y1 r - y0 r then children r else []).
Proof.
  intros (tl & tr & bl & br & n1 & n2 & n3 & n4 & n5 & hm1 & hm2 & hm3 & hm4
          & _ & _ & _ & Hq & _).
  exact Hq.
Qed.

(** Draining the regions of one level that head the queue. *)
Lemma drain_level (n : Z) (k : nat) :
  forall (L Q : list region) (st : state G) (fuel : nat),
    Forall (good_at (2 ^ n) (S k)) L ->
    q st = L ++ Q ->
    shape (2 ^ n + 1) (heightmap st) ->
    exists st',
      steps n k k st st' /\
      drain (length L + fuel) st = drain fuel st' /\
      q st' = Q ++ match k with O => [] | S _ => flat_map children L end /\
      shape (2 ^ n + 1) (heightmap st') /\
      rw (trace st') = rw (trace st) ++ flat_map region_accesses L.
Proof.
  induction L as [|r L IH]; intros Q st fuel HL Hq Hs.
  - exists st. split_and!; try assumption; try reflexivity.
    + constructor. lia.
    + simpl in Hq. rewrite Hq. destruct k; simpl; rewrite app_nil_r; reflexivity.
    + simpl. rewrite app_nil_r. reflexivity.
  - apply Forall_cons in HL as [Hr HL]. simpl in Hq.
    pose proof (good_at_bounds _ _ _ Hr) as Hb.
    destruct (iteration_ok (2 ^ n + 1) st r (L ++ Q) Hq Hs) as (st1 & Hit & Hpost);
      try lia.
    pose proof (iteration_post_q _ _ _ _ _ Hpost) as Hq1.
    rewrite (good_at_test _ _ _ Hr), <- app_assoc in Hq1.
    destruct (IH _ st1 fuel HL Hq1 (iteration_post_shape _ _ _ _ _ Hpost))
      as (st' & Hsteps & Hdr & Hq' & Hs' & Htr').
    exists st'. split_and!.
    + apply (steps_step n k k k st r (L ++ Q) st1 st'); try assumption. lia.
    + simpl. rewrite Hq, Hit. exact Hdr.
    + rewrite Hq'. destruct k; simpl; rewrite <- ?app_assoc; reflexivity.
    + exact Hs'.
    + rewrite Htr', (iteration_post_rw _ _ _ _ _ Hpost). simpl.
      rewrite <- app_assoc. reflexivity.
Qed.

(** Draining a queue that holds exactly one level. *)
Lemma drain_levels (n : Z) (k : nat) :
  forall (L : list region) (st : state G),
    Forall (good_at (2 ^ n) (S k)) L ->
    q st = L ->
    shape (2 ^ n + 1) (heightmap st) ->
    exists st',
      steps n 0 k st st' /\
      drain (S (length (levels (S k) L))) st = Some (Ok st') /\
      q st' = [] /\
      rw (trace st')
      = rw (trace st) ++ flat_map region_accesses (levels (S k) L).
Proof.
  induction k as [|k IH]; intros L st HL Hq Hs.
  - destruct (drain_level n 0 L [] st 1 HL) as (st' & Hsteps & Hdr & Hq' & Hs' & Htr');
      [rewrite app_nil_r; exact Hq|exact Hs|].
    change (levels 1 L) with (L ++ []). rewrite app_nil_r.
    simpl in Hq'. exists st'. split_and!; try assumption.
    replace (S (length L)) with (length L + 1)%nat by lia.
    rewrite Hdr. simpl. rewrite Hq'. reflexivity.
  - destruct (drain_level n (S k) L [] st
                (S (length (levels (S k) (flat_map children L)))) HL)
      as (st1 & Hsteps & Hdr & Hq1 & Hs1 & Htr1);
      [rewrite app_nil_r; exact Hq|exact Hs|].
    simpl in Hq1.
    destruct (IH _ st1 (good_at_flat_children _ _ _ HL) Hq1 Hs1)
      as (st' & Hsteps' & Hdr' & Hq' & Htr').
    exists st'. split_and!.
    + eapply steps_trans; [exact Hsteps|]. eapply steps_raise; [exact Hsteps'|lia].
    + change (levels (S (S k)) L) with (L ++ levels (S k) (flat_map children L)).
      rewrite length_app.
      replace (S (length L + length (levels (S k) (flat_map children L))))
        with (length L + S (length (levels (S k) (flat_map children L))))%nat
        by lia.
      rewrite Hdr. exact Hdr'.
    + exact Hq'.
    + rewrite Htr', Htr1.
      change (levels (S (S k)) L) with (L ++ levels (S k) (flat_map children L)).
      rewrite flat_map_app, <- app_assoc. reflexivity.
Qed.

End Loop.

(** ** The number of passes *)

Lemma length_flat_children (L : list region) :
  length (flat_map children L) = (4 * length L)%nat.
Proof.
  induction L as [|r L IH]; [reflexivity|].
  change (flat_map children (r :: L)) with (children r ++ flat_map children L).
  rewrite length_app, IH. unfold children. simpl. lia.
Qed.

Lemma levels_length (k : nat) :
  forall L : list region,
    3 * Z.of_nat (length (levels k L)) + Z.of_nat (length L)
    = Z.of_nat (length L) * 4 ^ Z.of_nat k.
Proof.
  induction k as [|k IH]; intros L.
  - simpl. lia.
  - change (levels (S k) L) with (L ++ levels k (flat_map children L)).
    rewrite length_app, Nat2Z.inj_succ, Z.pow_succ_r by lia.
    specialize (IH (flat_map children L)).
    rewrite length_flat_children in IH. lia.
Qed.

Lemma fuel_of_enough (n rho : Z) :
  1 <= n ->
  (S (length (levels (Z.to_nat n) [Region 0 0 (2 ^ n) (2 ^ n) rho]))
   <= fuel_of n)%nat.
Proof.
  intros Hn. unfold fuel_of.
  pose proof (levels_length (Z.to_nat n) [Region 0 0 (2 ^ n) (2 ^ n) rho]) as E.
  rewrite Z2Nat.id in E by lia. simpl length in E.
  assert (0 < 4 ^ n) by (apply Z.pow_pos_nonneg; lia). lia.
Qed.

(** ** The whole run *)

Section Run.

Context {G : Type} `{RandomSource G}.

Lemma start_post_shape (n rho : Z) (g : G) (st0 : state G) :
  start_post n rho g st0 -> shape (2 ^ n + 1) (heightmap st0).
Proof.
  intros (c1 & c2 & c3 & c4 & hm1 & hm2 & hm3 & _ & _ & (_ & _ & _ & Hst) & _).
  exact (stored_shape _ _ _ _ _ _ Hst).
Qed.

Lemma run_ok (n rho : Z) (g : G) :
  1 <= n -> 0 <= rho ->
  exists st0 st',
    start n rho g = Ok st0 /\
    start_post n rho g st0 /\
    steps n 0 (Z.to_nat (n - 1)) st0 st' /\
    q st' = [] /\
    run (fuel_of n) n rho g = Some (Ok st') /\
    rw (trace st')
    = rw (trace st0)
      ++ flat_map region_accesses
           (levels (Z.to_nat n) [Region 0 0 (2 ^ n) (2 ^ n) rho]).
Proof.
  intros Hn Hrho.
  destruct (start_ok n rho g) as (st0 & Hstart & Hpost); [lia|].
  pose proof (start_post_shape _ _ _ _ Hpost) as Hshape.
  assert (Hq : q st0 = [Region 0 0 (2 ^ n) (2 ^ n) rho]).
  { destruct Hpost as (c1 & c2 & c3 & c4 & hm1 & hm2 & hm3 & _ & _ & _ & Hq & _).
    exact Hq. }
  destruct (drain_levels n (Z.to_nat (n - 1)) _ st0
              (Forall_cons_2 _ _ _ (good_at_root n rho Hn Hrho) (Forall_nil_2 _))
              Hq Hshape)
    as (st' & Hsteps & Hdrain & Hq' & Htr).
  replace (S (Z.to_nat (n - 1))) with (Z.to_nat n) in Hdrain, Htr by lia.
  exists st0, st'. split_and!; try assumption.
  unfold run. rewrite Hstart.
  eapply drain_mono; [exact Hdrain|]. apply fuel_of_enough. exact Hn.
Qed.

End Run.

(** ** What a pass logs *)

Lemma in_block (r : region) (n1 n2 n3 n4 n5 : Z) (o : option region) (a : access) :
  In (o, a) (block r n1 n2 n3 n4 n5) ->
  o = Some r /\
  ((exists c, In c (region_reads r) /\ a = Read c.1 c.2) \/
   (exists c, In c (region_writes r) /\ a = Write c.1 c.2) \/
   (exists v, In v [n1; n2; n3; n4; n5] /\
              a = Draw (- roughness r) (roughness r) v) \/
   (exists c, (2 <? y1 r - y0 r) = true /\ In c (children r) /\ a = Enqueue c)).
Proof.
  unfold block. cbv zeta. intros Hin.
  apply in_map_iff in Hin as (a' & [= <- <-] & Hin).
  split; [reflexivity|].
  apply in_app_or in Hin as [Hin|Hin].
  - unfold region_reads, region_writes.
    simpl in Hin.
    repeat (destruct Hin as [<-|Hin];
            [first [ left; eexists (_, _); split; [|reflexivity]; simpl; tauto
                   | right; left; eexists (_, _); split; [|reflexivity];
                     simpl; tauto
                   | right; right; left; eexists; split; [|reflexivity];
                     simpl; tauto ]|]).
    destruct Hin.
  - right. right. right.
    destruct (2 <? y1 r - y0 r); [|destruct Hin].
    apply in_map_iff in Hin as (c & <- & Hc). exists c. auto.
Qed.

Lemma in_block_read (r : region) n1 n2 n3 n4 n5 o row col :
  In (o, Read row col) (block r n1 n2 n3 n4 n5) ->
  o = Some r /\ In (row, col) (region_reads r).
Proof.
  intros Hin. apply in_block in Hin as [-> Hin]. split; [reflexivity|].
  destruct Hin as [([a b] & Hc & [= -> ->])|[(c & _ & [=])|[(v & _ & [=])|(c & _ & _ & [=])]]].
  exact Hc.
Qed.

Lemma in_block_write (r : region) n1 n2 n3 n4 n5 o row col :
  In (o, Write row col) (block r n1 n2 n3 n4 n5) ->
  o = Some r /\ In (row, col) (region_writes r).
Proof.
  intros Hin. apply in_block in Hin as [-> Hin]. split; [reflexivity|].
  destruct Hin as [(c & _ & [=])|[([a b] & Hc & [= -> ->])|[(v & _ & [=])|(c & _ & _ & [=])]]].
  exact Hc.
Qed.

Lemma in_block_draw (r : region) n1 n2 n3 n4 n5 o lo hi v :
  In (o, Draw lo hi v) (block r n1 n2 n3 n4 n5) ->
  o = Some r /\ lo = - roughness r /\ hi = roughness r /\
  In v [n1; n2; n3; n4; n5].
Proof.
  intros Hin. apply in_block in Hin as [-> Hin]. split; [reflexivity|].
  destruct Hin as [(c & _ & [=])|[(c & _ & [=])|[(w & Hw & [= -> -> ->])|(c & _ & _ & [=])]]].
  auto.
Qed.

Lemma in_block_enqueue (r : region) n1 n2 n3 n4 n5 o c :
  In (o, Enqueue c) (block r n1 n2 n3 n4 n5) ->
  o = Some r /\ (2 <? y1 r - y0 r) = true /\ In c (children r).
Proof.
  intros Hin. apply in_block in Hin as [-> Hin]. split; [reflexivity|].
  destruct Hin as [(c' & _ & [=])|[(c' & _ & [=])|[(w & _ & [=])|(c' & Ht & Hc & [= ->])]]].
  auto.
Qed.

Lemma region_reads_in_grid (N : Z) (k : nat) (r : region) (row col : Z) :
  good_at N (S k) r -> In (row, col) (region_reads r) ->
  in_grid (N + 1) row col.
Proof.
  intros Hg Hin. apply good_at_bounds in Hg. unfold in_grid.
  unfold region_reads in Hin. simpl in Hin.
  repeat (destruct Hin as [[= <- <-]|Hin]; [lia|]). destruct Hin.
Qed.

Lemma region_writes_in_grid (N : Z) (k : nat) (r : region) (row col : Z) :
  good_at N (S k) r -> In (row, col) (region_writes r) ->
  in_grid (N + 1) row col.
Proof.
  intros Hg Hin. apply good_at_bounds in Hg. unfold in_grid.
  unfold region_writes in Hin. simpl in Hin.
  repeat (destruct Hin as [[= <- <-]|Hin]; [zlia|]). destruct Hin.
Qed.

Lemma children_roughness (r c : region) :
  In c (children r) -> roughness c = roughness r / 2.
Proof.
  unfold children. simpl. intros Hin.
  repeat (destruct Hin as [<-|Hin]; [reflexivity|]). destruct Hin.
Qed.

Lemma iteration_post_trace {G : Type} (side : Z) (st : state G) r rest
    (st' : state G) :
  iteration_post side st r rest st' ->
  exists n1 n2 n3 n4 n5,
    (- roughness r <= n1 <= roughness r /\
     - roughness r <= n2 <= roughness r /\
     - roughness r <= n3 <= roughness r /\
     - roughness r <= n4 <= roughness r /\
     - roughness r <= n5 <= roughness r) /\
    trace st' = trace st ++ block r n1 n2 n3 n4 n5.
Proof.
  intros (tl & tr & bl & br & n1 & n2 & n3 & n4 & n5 & hm1 & hm2 & hm3 & hm4
          & _ & Hn & _ & _ & _ & Htr).
  exists n1, n2, n3, n4, n5. split; assumption.
Qed.

Lemma in_seed_log (n rho c1 c2 c3 c4 : Z) (o : option region) (a : access) :
  In (o, a) (seed_log n rho c1 c2 c3 c4) ->
  o = None /\
  ((exists v, a = Draw 0 256 v) \/
   (exists row col, a = Write row col /\ grid_corner n row col) \/
   a = Enqueue (Region 0 0 (2 ^ n) (2 ^ n) rho)).
Proof.
  unfold seed_log, grid_corner. intros Hin.
  apply in_map_iff in Hin as (a' & [= <- <-] & Hin).
  split; [reflexivity|]. simpl in Hin.
  repeat (destruct Hin as [<-|Hin];
          [first [ left; eexists; reflexivity
                 | right; left; do 2 eexists; split; [reflexivity|]; tauto
                 | right; right; reflexivity ]|]).
  destruct Hin.
Qed.

(** ** Termination, bounds and the shape of the regions *)

Section Safety.

Context {G : Type} `{RandomSource G}.

Lemma run_negative (n rho : Z) (g : G) :
  1 <= n -> rho < 0 -> run (fuel_of n) n rho g = Some (Raise ValueError).
Proof.
  intros Hn Hrho.
  destruct (start_ok n rho g) as (st0 & Hstart & Hpost); [lia|].
  pose proof (start_post_shape _ _ _ _ Hpost) as Hshape.
  destruct Hpost as (c1 & c2 & c3 & c4 & hm1 & hm2 & hm3 & _ & _ & _ & Hq & _).
  assert (Hpos : 0 < 2 ^ n) by (apply Z.pow_pos_nonneg; lia).
  assert (Hfuel : exists f, fuel_of n = S f).
  { unfold fuel_of. assert (0 < 4 ^ n) by (apply Z.pow_pos_nonneg; lia).
    exists (Z.to_nat (4 ^ n - 1)). lia. }
  destruct Hfuel as [f ->].
  unfold run. rewrite Hstart. simpl. rewrite Hq.
  rewrite (iteration_negative (2 ^ n + 1) st0 _ [] Hq Hshape); simpl; try lia.
  reflexivity.
Qed.



(** C7.  In a run with [n >= 1] every region appended to the queue is
    square with a side that is a power of two; the root is the whole grid,
    and a region appended while [p] is processed has exactly half the side
    of [p] (so a strictly smaller one) and roughness [roughness p // 2]. *)
Theorem regions_square_halving (n rho : Z) (g : G) :
  1 <= n -> 0 <= rho ->
  exists st',
    run (fuel_of n) n rho g = Some (Ok st') /\
    forall o c, In (o, Enqueue c) (trace st') -> enqueue_ok n rho o c.
Proof.
  intros Hn Hrho.
  destruct (run_ok n rho g Hn Hrho) as (st0 & st' & _ & Hpost & Hsteps & _ & Hrun & _).
  exists st'. split; [exact Hrun|].
  refine (steps_invariant n
            (fun _ st => forall o c, In (o, Enqueue c) (trace st) ->
                                     enqueue_ok n rho o c)
            _ _ _ _ _ _ Hsteps _).
  - intros k k' st _ HJ. exact HJ.
  - intros k st r rest st1 HJ Hq Hg Hsh Hp o c Hin.
    destruct (iteration_post_trace _ _ _ _ _ Hp) as (n1 & n2 & n3 & n4 & n5 & _ & Htr).
    rewrite Htr in Hin. apply in_app_or in Hin as [Hin|Hin]; [auto|].
    apply in_block_enqueue in Hin as (-> & Htest & Hc).
    rewrite (good_at_test _ _ _ Hg) in Htest.
    destruct k as [|k]; [discriminate|].
    pose proof (good_at_children _ _ _ Hg) as Hkids.
    rewrite Forall_forall in Hkids.
    specialize (Hkids c (proj2 (list_elem_of_In _ _) Hc)).
    destruct Hkids as (Hx & Hy & _). destruct Hg as (Hx' & _).
    rewrite (pow2_S (S k)) in Hx'. pose proof (pow2_pos (S k)).
    unfold enqueue_ok. split_and!; try lia.
    + exists (S k). exact Hx.
    + apply children_roughness. exact Hc.
  - intros o c Hin.
    destruct Hpost as (c1 & c2 & c3 & c4 & hm1 & hm2 & hm3 & _ & _ & _ & _ & Htr).
    rewrite Htr in Hin. apply in_seed_log in Hin as [-> Hin].
    destruct Hin as [[v [=]]|[(row & col & [=] & _)|[= ->]]].
    unfold enqueue_ok. simpl. split_and!; try lia; try reflexivity.
    exists (Z.to_nat n). rewrite pow2_of_Z by lia. lia.
Qed.

(** C8.  For [n >= 1] no subscript is ever out of bounds: the function
    never raises [IndexError], and every [heightmap[row, col]] read or
    assigned during a completed run has [0 <= row, col < 2^n + 1]. *)
Theorem accesses_in_bounds (n rho : Z) (g : G) :
  1 <= n ->
  exists o,
    run (fuel_of n) n rho g = Some o /\
    o <> Raise IndexError /\
    (0 <= rho -> exists st', o = Ok st') /\
    forall st', o = Ok st' ->
      forall ow row col,
        In (ow, Read row col) (trace st') \/ In (ow, Write row col) (trace st') ->
        in_grid (2 ^ n + 1) row col.
Proof.
  intros Hn.
  destruct (Z_lt_le_dec rho 0) as [Hneg|Hpos].
  - exists (Raise ValueError). split_and!.
    + apply run_negative; assumption.
    + discriminate.
    + lia.
    + discriminate.
  - destruct (run_ok n rho g Hn Hpos) as (st0 & st' & _ & Hpost & Hsteps & _ & Hrun & _).
    exists (Ok st'). split_and!; [exact Hrun|discriminate|eauto|].
    intros st'' [= <-].
    assert (Hpow : 0 < 2 ^ n) by (apply Z.pow_pos_nonneg; lia).
    refine (steps_invariant n
              (fun _ st => forall ow row col,
                   In (ow, Read row col) (trace st) \/
                   In (ow, Write row col) (trace st) ->
                   in_grid (2 ^ n + 1) row col)
              _ _ _ _ _ _ Hsteps _).
    + intros k k' st _ HJ. exact HJ.
    + intros k st r rest st1 HJ Hq Hg Hsh Hp ow row col Hin.
      destruct (iteration_post_trace _ _ _ _ _ Hp) as (n1 & n2 & n3 & n4 & n5 & _ & Htr).
      rewrite Htr in Hin.
      destruct Hin as [Hin|Hin]; apply in_app_or in Hin as [Hin|Hin];
        try (eapply HJ; eauto; fail).
      * apply in_block_read in Hin as [_ Hin].
        eapply region_reads_in_grid; eassumption.
      * apply in_block_write in Hin as [_ Hin].
        eapply region_writes_in_grid; eassumption.
    + intros ow row col Hin.
      destruct Hpost as (c1 & c2 & c3 & c4 & hm1 & hm2 & hm3 & _ & _ & _ & _ & Htr).
      rewrite Htr in Hin.
      destruct Hin as [Hin|Hin]; apply in_seed_log in Hin as [_ Hin].
      * destruct Hin as [[v [=]]|[(r' & c' & [=] & _)|[=]]].
      * destruct Hin as [[v [=]]|[(r' & c' & [= -> ->] & Hc)|[=]]].
        unfold grid_corner in Hc. unfold in_grid. lia.
Qed.

End Safety.


(** ** Cells a pass leaves alone *)

Lemma stored_get_other (side : Z) (hm : grid) (row col v : Z) (hm' : grid)
    (r c : Z) :
  stored side hm row col v hm' -> in_grid side r c ->
  r <> row \/ c <> col ->
  hm_get hm' r c = hm_get hm r c.
Proof.
  intros [_ Hget] Hin Hne. rewrite (Hget r c Hin).
  rewrite bool_decide_eq_false_2 by tauto. reflexivity.
Qed.

Lemma stored_get_same (side : Z) (hm : grid) (row col v : Z) (hm' : grid) :
  stored side hm row col v hm' -> in_grid side row col ->
  hm_get hm' row col = Some v.
Proof.
  intros [_ Hget] Hin. rewrite (Hget row col Hin).
  rewrite bool_decide_eq_true_2 by tauto. reflexivity.
Qed.

Lemma not_in_region_writes (r : region) (row col : Z) :
  ~ In (row, col) (region_writes r) ->
  let cy := (y0 r + y1 r) / 2 in
  let cx := (x0 r + x1 r) / 2 in
  (row <> cy \/ col <> x0 r) /\ (row <> cy \/ col <> x1 r) /\
  (row <> y0 r \/ col <> cx) /\ (row <> y1 r \/ col <> cx) /\
  (row <> cy \/ col <> cx).
Proof.
  unfold region_writes. cbv zeta. intros Hn.
  split_and!;
    match goal with
    | |- ?a <> ?b \/ ?c <> ?d =>
        destruct (Z.eq_dec a b) as [->|]; [|tauto];
        destruct (Z.eq_dec c d) as [->|]; [|tauto];
        exfalso; apply Hn; simpl; auto 10
    end.
Qed.

Lemma iteration_post_frame {G : Type} (side : Z) (st : state G) r rest
    (st' : state G) (row col : Z) :
  iteration_post side st r rest st' ->
  in_grid side row col -> ~ In (row, col) (region_writes r) ->
  hm_get (heightmap st') row col = hm_get (heightmap st) row col.
Proof.
  intros (tl & tr & bl & br & n1 & n2 & n3 & n4 & n5 & hm1 & hm2 & hm3 & hm4
          & _ & _ & (S1 & S2 & S3 & S4 & S5) & _) Hin Hn.
  apply not_in_region_writes in Hn. cbv zeta in Hn.
  destruct Hn as (N1 & N2 & N3 & N4 & N5).
  rewrite (stored_get_other _ _ _ _ _ _ _ _ S5 Hin N5).
  rewrite (stored_get_other _ _ _ _ _ _ _ _ S4 Hin N4).
  rewrite (stored_get_other _ _ _ _ _ _ _ _ S3 Hin N3).
  rewrite (stored_get_other _ _ _ _ _ _ _ _ S2 Hin N2).
  exact (stored_get_other _ _ _ _ _ _ _ _ S1 Hin N1).
Qed.

Lemma region_writes_inside (N : Z) (k : nat) (r : region) (row col : Z) :
  good_at N (S k) r -> In (row, col) (region_writes r) ->
  0 < row < N \/ 0 < col < N.
Proof.
  intros Hg Hin. apply good_at_bounds in Hg.
  unfold region_writes in Hin. simpl in Hin.
  repeat (destruct Hin as [[= <- <-]|Hin]; [zlia|]). destruct Hin.
Qed.

Lemma start_post_corners {G : Type} `{RandomSource G} (n rho : Z) (g : G)
    (st0 : state G) :
  0 <= n -> start_post n rho g st0 ->
  exists c1 c2 c3 c4,
    corner_seeds g = (c1, c2, c3, c4) /\
    hm_get (heightmap st0) 0 0 = Some c1 /\
    hm_get (heightmap st0) 0 (2 ^ n) = Some c2 /\
    hm_get (heightmap st0) (2 ^ n) 0 = Some c3 /\
    hm_get (heightmap st0) (2 ^ n) (2 ^ n) = Some c4.
Proof.
  intros Hn (c1 & c2 & c3 & c4 & hm1 & hm2 & hm3 & Hseeds & _
             & (S1 & S2 & S3 & S4) & _).
  assert (Hpow : 0 < 2 ^ n) by (apply Z.pow_pos_nonneg; lia).
  exists c1, c2, c3, c4. split; [exact Hseeds|].
  assert (I00 : in_grid (2 ^ n + 1) 0 0) by (unfold in_grid; lia).
  assert (I01 : in_grid (2 ^ n + 1) 0 (2 ^ n)) by (unfold in_grid; lia).
  assert (I10 : in_grid (2 ^ n + 1) (2 ^ n) 0) by (unfold in_grid; lia).
  assert (I11 : in_grid (2 ^ n + 1) (2 ^ n) (2 ^ n)) by (unfold in_grid; lia).
  split_and!.
  - rewrite (stored_get_other _ _ _ _ _ _ _ _ S4 I00) by lia.
    rewrite (stored_get_other _ _ _ _ _ _ _ _ S3 I00) by lia.
    rewrite (stored_get_other _ _ _ _ _ _ _ _ S2 I00) by lia.
    exact (stored_get_same _ _ _ _ _ _ S1 I00).
  - rewrite (stored_get_other _ _ _ _ _ _ _ _ S4 I01) by lia.
    rewrite (stored_get_other _ _ _ _ _ _ _ _ S3 I01) by lia.
    exact (stored_get_same _ _ _ _ _ _ S2 I01).
  - rewrite (stored_get_other _ _ _ _ _ _ _ _ S4 I10) by lia.
    exact (stored_get_same _ _ _ _ _ _ S3 I10).
  - exact (stored_get_same _ _ _ _ _ _ S4 I11).
Qed.

Section Frame.

Context {G : Type} `{RandomSource G}.

(** C10.  For [n >= 1] the four corner cells of the returned grid hold the
    four seeds drawn before the loop, in the order top-left, top-right,
    bottom-left, bottom-right, and no assignment made while a region is
    processed targets a corner cell of the grid. *)
Theorem corners_preserved (n rho : Z) (g : G) :
  1 <= n -> 0 <= rho ->
  exists st' c1 c2 c3 c4,
    run (fuel_of n) n rho g = Some (Ok st') /\
    corner_seeds g = (c1, c2, c3, c4) /\
    (hm_get (heightmap st') 0 0 = Some c1 /\
     hm_get (heightmap st') 0 (2 ^ n) = Some c2 /\
     hm_get (heightmap st') (2 ^ n) 0 = Some c3 /\
     hm_get (heightmap st') (2 ^ n) (2 ^ n) = Some c4) /\
    forall r row col,
      In (Some r, Write row col) (trace st') -> ~ grid_corner n row col.
Proof.
  intros Hn Hrho.
  destruct (run_ok n rho g Hn Hrho) as (st0 & st' & _ & Hpost & Hsteps & _ & Hrun & _).
  destruct (start_post_corners n rho g st0 ltac:(lia) Hpost)
    as (c1 & c2 & c3 & c4 & Hseeds & Hcorners).
  assert (Hpow : 0 < 2 ^ n) by (apply Z.pow_pos_nonneg; lia).
  exists st', c1, c2, c3, c4. split; [exact Hrun|]. split; [exact Hseeds|].
  refine (steps_invariant n
            (fun _ st =>
               (hm_get (heightmap st) 0 0 = Some c1 /\
                hm_get (heightmap st) 0 (2 ^ n) = Some c2 /\
                hm_get (heightmap st) (2 ^ n) 0 = Some c3 /\
                hm_get (heightmap st) (2 ^ n) (2 ^ n) = Some c4) /\
               forall r row col,
                 In (Some r, Write row col) (trace st) -> ~ grid_corner n row col)
            _ _ _ _ _ _ Hsteps _).
  - intros k k' st _ HJ. exact HJ.
  - intros k st r rest st1 [(H00 & H01 & H10 & H11) Hw] Hq Hg Hsh Hp.
    assert (Hfree : forall row col, grid_corner n row col ->
                                    ~ In (row, col) (region_writes r)).
    { intros row col Hc Hin.
      pose proof (region_writes_inside _ _ _ _ _ Hg Hin).
      unfold grid_corner in Hc. lia. }
    split.
    + rewrite <- H00, <- H01, <- H10, <- H11.
      split_and!; apply (iteration_post_frame _ _ _ _ _ _ _ Hp);
        try apply Hfree; unfold in_grid, grid_corner; lia.
    + intros r' row col Hin.
      destruct (iteration_post_trace _ _ _ _ _ Hp) as (n1 & n2 & n3 & n4 & n5 & _ & Htr).
      rewrite Htr in Hin. apply in_app_or in Hin as [Hin|Hin]; [eauto|].
      apply in_block_write in Hin as [_ Hin]. intros Hc.
      exact (Hfree _ _ Hc Hin).
  - split; [exact Hcorners|].
    intros r row col Hin.
    destruct Hpost as (d1 & d2 & d3 & d4 & hm1 & hm2 & hm3 & _ & _ & _ & _ & Htr).
    rewrite Htr in Hin. apply in_seed_log in Hin as [[=] _].
Qed.

End Frame.

(** ** Reads come after the assignments they depend on, and before none *)





Lemma in_region_accesses (r : region) (o : option region) (a : access) :
  In (o, a) (region_accesses r) ->
  o = Some r /\
  ((exists c, In c (region_reads r) /\ a = Read c.1 c.2) \/
   (exists c, In c (region_writes r) /\ a = Write c.1 c.2)).
Proof.
  unfold region_accesses. intros Hin.
  apply in_app_or in Hin as [Hin|Hin];
    apply in_map_iff in Hin as (c & [= <- <-] & Hc); split; eauto.
Qed.



Lemma reads_aligned (N : Z) (k : nat) (r : region) (row col : Z) :
  good_at N k r -> In (row, col) (region_reads r) -> aligned (pow2 k) row col.
Proof.
  intros (Hx & Hy & Dx & Dy & _) Hin.
  assert (Dx1 : (pow2 k | x1 r)).
  { replace (x1 r) with (x0 r + pow2 k) by lia.
    apply Z.divide_add_r; [exact Dx|apply Z.divide_refl]. }
  assert (Dy1 : (pow2 k | y1 r)).
  { replace (y1 r) with (y0 r + pow2 k) by lia.
    apply Z.divide_add_r; [exact Dy|apply Z.divide_refl]. }
  unfold region_reads in Hin. simpl in Hin. unfold aligned.
  repeat (destruct Hin as [[= <- <-]|Hin]; [split; assumption|]).
  destruct Hin.
Qed.

Lemma not_divide_plus_half (k : nat) (a : Z) :
  (pow2 (S k) | a) -> ~ (pow2 (S k) | a + pow2 k).
Proof.
  intros Da Db. pose proof (pow2_pos k) as Hpos.
  assert (D : (pow2 (S k) | pow2 k)).
  { apply (Z.divide_add_cancel_r _ a); assumption. }
  apply Z.divide_pos_le in D; [|exact Hpos]. rewrite pow2_S in D. lia.
Qed.

Lemma writes_unaligned (N : Z) (k : nat) (r : region) (row col : Z) :
  good_at N (S k) r -> In (row, col) (region_writes r) ->
  ~ aligned (pow2 (S k)) row col.
Proof.
  intros (Hx & Hy & Dx & Dy & _) Hin [Dr Dc].
  rewrite pow2_S in Hx, Hy.
  pose proof (midpoint _ _ _ Hx) as Hcx.
  pose proof (midpoint _ _ _ Hy) as Hcy.
  pose proof (not_divide_plus_half k _ Dx) as Nx.
  pose proof (not_divide_plus_half k _ Dy) as Ny.
  unfold region_writes in Hin. cbv zeta in Hin. rewrite Hcx, Hcy in Hin.
  simpl in Hin.
  repeat (destruct Hin as [[= <- <-]|Hin]; [tauto|]).
  destruct Hin.
Qed.

Lemma aligned_half (k : nat) (row col : Z) :
  aligned (pow2 (S k)) row col -> aligned (pow2 k) row col.
Proof. intros [Dr Dc]. split; apply divide_half; assumption. Qed.

Lemma flat_accesses_app (L1 L2 : list region) :
  flat_map region_accesses (L1 ++ L2)
  = flat_map region_accesses L1 ++ flat_map region_accesses L2.
Proof. apply flat_map_app. Qed.








Lemma rw_seed_log (n rho c1 c2 c3 c4 : Z) :
  rw (seed_log n rho c1 c2 c3 c4)
  = map (pair None)
      [Write 0 0; Write 0 (2 ^ n); Write (2 ^ n) 0; Write (2 ^ n) (2 ^ n)].
Proof. reflexivity. Qed.

Section Dependencies.

Context {G : Type} `{RandomSource G}.


End Dependencies.

(** ** How often a cell is assigned *)

Lemma write_neq (a b c d : Z) : Write a b <> Write c d -> a <> c \/ b <> d.
Proof.
  intros Hne. destruct (Z.eq_dec a c) as [->|]; [|tauto].
  destruct (Z.eq_dec b d) as [->|]; [|tauto]. congruence.
Qed.

Lemma own_count (r : region) (h row col : Z) :
  0 < h -> x1 r = x0 r + 2 * h -> y1 r = y0 r + 2 * h ->
  let own := count_writes row col (region_accesses r) in
  ((row = y0 r + h /\ (col = x0 r \/ col = x0 r + h \/ col = x0 r + 2 * h)) \/
   (col = x0 r + h /\ (row = y0 r \/ row = y0 r + 2 * h)) -> own = 1%nat) /\
  (~ ((row = y0 r + h /\ (col = x0 r \/ col = x0 r + h \/ col = x0 r + 2 * h)) \/
      (col = x0 r + h /\ (row = y0 r \/ row = y0 r + 2 * h))) -> own = 0%nat).
Proof.
  intros Hh Hx Hy.
  assert (Hcx : (x0 r + x1 r) / 2 = x0 r + h) by (apply midpoint; lia).
  assert (Hcy : (y0 r + y1 r) / 2 = y0 r + h) by (apply midpoint; lia).
  unfold count_writes, region_accesses, region_reads, region_writes.
  cbv zeta. rewrite Hcx, Hcy, Hx, Hy.
  cbn [map app List.filter snd fst].
  rewrite !(bool_decide_eq_false_2 (Read _ _ = Write _ _)) by discriminate.
  repeat match goal with
         | |- context [bool_decide (Write ?a ?b = Write ?c ?d)] =>
             let E := fresh "E" in
             destruct (bool_decide_reflect (Write a b = Write c d)) as [E|E];
             [injection E as ? ?|apply write_neq in E]
         end;
    cbn [length]; split; intros; lia.
Qed.

Lemma count_accesses_app (row col : Z) (L1 L2 : list region) :
  count_writes row col (flat_map region_accesses (L1 ++ L2))
  = (count_writes row col (flat_map region_accesses L1)
     + count_writes row col (flat_map region_accesses L2))%nat.
Proof. rewrite flat_accesses_app. apply count_writes_app. Qed.

Lemma levels_count_app (row col : Z) (k : nat) :
  forall L1 L2 : list region,
    count_writes row col (flat_map region_accesses (levels k (L1 ++ L2)))
    = (count_writes row col (flat_map region_accesses (levels k L1))
       + count_writes row col (flat_map region_accesses (levels k L2)))%nat.
Proof.
  induction k as [|k IH]; intros L1 L2; [reflexivity|].
  change (levels (S k) ?L) with (L ++ levels k (flat_map children L)).
  rewrite !count_accesses_app, flat_map_app, IH. lia.
Qed.

Lemma levels_count_single (row col : Z) (k : nat) (r a b c d : region) :
  children r = [a; b; c; d] ->
  count_writes row col (flat_map region_accesses (levels (S k) [r]))
  = (count_writes row col (region_accesses r)
     + (count_writes row col (flat_map region_accesses (levels k [a]))
        + count_writes row col (flat_map region_accesses (levels k [b]))
        + count_writes row col (flat_map region_accesses (levels k [c]))
        + count_writes row col (flat_map region_accesses (levels k [d]))))%nat.
Proof.
  intros Hkids.
  change (levels (S k) [r]) with ([r] ++ levels k (flat_map children [r])).
  rewrite count_accesses_app.
  change (flat_map children [r]) with (children r ++ []).
  rewrite app_nil_r, Hkids.
  change [a; b; c; d] with ([a] ++ [b] ++ [c] ++ [d]).
  rewrite !levels_count_app.
  change (flat_map region_accesses [r]) with (region_accesses r ++ []).
  rewrite app_nil_r. lia.
Qed.

Ltac use_census Hc :=
  let Ho := fresh "Ho" in let Hk := fresh "Hk" in
  let Hb := fresh "Hb" in let Hi := fresh "Hi" in
  destruct Hc as (Ho & Hk & Hb & Hi); cbn [x0 y0 x1 y1] in Ho, Hk, Hb, Hi;
  first [ specialize (Ho ltac:(lia)); clear Hk Hb Hi
        | specialize (Hk ltac:(lia)); clear Ho Hb Hi
        | specialize (Hb ltac:(lia)); clear Ho Hk Hi
        | specialize (Hi ltac:(lia)); clear Ho Hk Hb ].

Ltac use_own H1 H0 :=
  first [ specialize (H1 ltac:(lia)); clear H0
        | specialize (H0 ltac:(lia)); clear H1 ].

Lemma subtree_census (N : Z) (k : nat) :
  forall (r : region) (row col : Z),
    good_at N (S k) r ->
    census r (k = 0%nat) row col
      (count_writes row col (flat_map region_accesses (levels (S k) [r]))).
Proof.
  induction k as [|k IH]; intros r row col Hg.
  - destruct Hg as (Hx & Hy & _). rewrite pow2_S in Hx, Hy.
    change (pow2 0) with 1 in Hx, Hy.
    change (levels 1 [r]) with ([r] ++ []).
    change (flat_map region_accesses ([r] ++ [])) with (region_accesses r ++ []).
    rewrite app_nil_r.
    destruct (own_count r 1 row col) as [H1 H0]; try lia.
    unfold census. split_and!; intros Hpos; use_own H1 H0; lia.
  - pose proof (good_at_children _ _ _ Hg) as Hkids.
    destruct Hg as (Hx & Hy & _).
    rewrite (pow2_S (S k)) in Hx, Hy. pose proof (pow2_pos (S k)) as Hh.
    set (h := pow2 (S k)) in *.
    assert (Hcx : (x0 r + x1 r) / 2 = x0 r + h) by (apply midpoint; lia).
    assert (Hcy : (y0 r + y1 r) / 2 = y0 r + h) by (apply midpoint; lia).
    unfold children in Hkids. cbv zeta in Hkids. rewrite Hcx, Hcy in Hkids.
    apply Forall_cons in Hkids as [Ga Hkids].
    apply Forall_cons in Hkids as [Gb Hkids].
    apply Forall_cons in Hkids as [Gc Hkids].
    apply Forall_cons in Hkids as [Gd _].
    pose proof (IH _ row col Ga) as Ca.
    pose proof (IH _ row col Gb) as Cb.
    pose proof (IH _ row col Gc) as Cc.
    pose proof (IH _ row col Gd) as Cd.
    rewrite (levels_count_single row col (S k) r _ _ _ _ eq_refl).
    cbv zeta. rewrite Hcx, Hcy.
    destruct (own_count r h row col) as [H1 H0]; try lia.
    assert (Hrow : row < y0 r + h \/ row = y0 r + h \/ y0 r + h < row) by lia.
    assert (Hcol : col < x0 r + h \/ col = x0 r + h \/ x0 r + h < col) by lia.
    unfold census. split_and!; intros Hpos;
      destruct Hrow as [Hrow|[Hrow|Hrow]];
      destruct Hcol as [Hcol|[Hcol|Hcol]];
      use_own H1 H0;
      use_census Ca; use_census Cb; use_census Cc; use_census Cd;
      lia.
Qed.

Lemma seed_writes_count (n rho c1 c2 c3 c4 row col : Z) :
  ~ grid_corner n row col ->
  count_writes row col (rw (seed_log n rho c1 c2 c3 c4)) = 0%nat.
Proof.
  intros Hc. unfold grid_corner in Hc. rewrite rw_seed_log.
  unfold count_writes. cbn [map List.filter snd].
  repeat match goal with
         | |- context [bool_decide (Write ?a ?b = Write ?c ?d)] =>
             rewrite (bool_decide_eq_false_2 (Write a b = Write c d))
               by (intros [= <- <-]; tauto)
         end.
  reflexivity.
Qed.

(** ** The middle lines of a region *)

Lemma within_children (N : Z) (k : nat) (c r r' : region) :
  good_at N (S k) r -> within c r -> In r' (children r) -> within c r'.
Proof.
  intros Hg Hw Hin. apply good_at_bounds in Hg. unfold within in *.
  unfold children in Hin. simpl in Hin.
  repeat (destruct Hin as [<-|Hin]; [simpl; zlia|]). destruct Hin.
Qed.

Lemma within_flat_children (N : Z) (k : nat) (c : region) (L : list region) :
  Forall (good_at N (S k)) L -> Forall (within c) L ->
  Forall (within c) (flat_map children L).
Proof.
  intros HL HW. rewrite Forall_forall in HL, HW. apply Forall_forall.
  intros r' Hr'. apply list_elem_of_In, in_flat_map in Hr' as (r & Hr & Hr').
  apply list_elem_of_In in Hr.
  exact (within_children _ _ _ _ _ (HL r Hr) (HW r Hr) Hr').
Qed.

Lemma levels_within (N : Z) (c : region) (k : nat) :
  forall L : list region,
    Forall (good_at N (S k)) L -> Forall (within c) L ->
    forall o a,
      In (o, a) (flat_map region_accesses (levels (S k) L)) ->
      exists r, o = Some r /\ within c r.
Proof.
  induction k as [|k IH]; intros L HL HW o a Hin;
    change (levels (S ?j) L) with (L ++ levels j (flat_map children L)) in Hin;
    rewrite flat_accesses_app in Hin; apply in_app_or in Hin as [Hin|Hin].
  - apply in_flat_map in Hin as (r & Hr & Hin).
    apply in_region_accesses in Hin as [-> _]. exists r. split; [reflexivity|].
    rewrite Forall_forall in HW. apply HW, list_elem_of_In, Hr.
  - destruct Hin.
  - apply in_flat_map in Hin as (r & Hr & Hin).
    apply in_region_accesses in Hin as [-> _]. exists r. split; [reflexivity|].
    rewrite Forall_forall in HW. apply HW, list_elem_of_In, Hr.
  - exact (IH _ (good_at_flat_children _ _ _ HL)
             (within_flat_children _ _ _ _ HL HW) o a Hin).
Qed.

Lemma levels_In_app (e : event) (k : nat) :
  forall L1 L2 : list region,
    In e (flat_map region_accesses (levels k (L1 ++ L2))) <->
    In e (flat_map region_accesses (levels k L1)) \/
    In e (flat_map region_accesses (levels k L2)).
Proof.
  induction k as [|k IH]; intros L1 L2; [simpl; tauto|].
  change (levels (S k) ?L) with (L ++ levels k (flat_map children L)).
  rewrite !flat_accesses_app, flat_map_app, !in_app_iff, IH. tauto.
Qed.

Lemma count_writes_In (row col : Z) (l : list event) :
  (1 <= count_writes row col l)%nat -> exists o, In (o, Write row col) l.
Proof.
  unfold count_writes. intros Hc.
  destruct (List.filter (fun e => bool_decide (e.2 = Write row col)) l)
    as [|[o a] l'] eqn:E; [simpl in Hc; lia|].
  assert (Hin : In (o, a) (List.filter
                             (fun e => bool_decide (e.2 = Write row col)) l))
    by (rewrite E; left; reflexivity).
  apply filter_In in Hin as [Hin Hb]. apply bool_decide_eq_true_1 in Hb.
  simpl in Hb. subst a. exists o. exact Hin.
Qed.

Lemma within_self (N : Z) (k : nat) (c : region) :
  good_at N (S k) c -> within c c.
Proof. intros Hg. apply good_at_bounds in Hg. unfold within. lia. Qed.

(** A cell on the border of a region, not a corner of it, is assigned by a
    region inside it. *)
Lemma border_writer (N : Z) (k : nat) (c : region) (row col : Z) :
  good_at N (S k) c ->
  y0 c <= row <= y1 c /\ x0 c <= col <= x1 c /\
  (row = y0 c \/ row = y1 c \/ col = x0 c \/ col = x1 c) /\
  ~ ((row = y0 c \/ row = y1 c) /\ (col = x0 c \/ col = x1 c)) ->
  exists r, within c r /\
            In (Some r, Write row col)
               (flat_map region_accesses (levels (S k) [c])).
Proof.
  intros Hg Hb.
  destruct (subtree_census N k c row col Hg) as (_ & _ & Hone & _).
  specialize (Hone Hb).
  destruct (count_writes_In row col _ ltac:(rewrite Hone; lia)) as [o Ho].
  destruct (levels_within N c k [c] (Forall_cons_2 _ _ _ Hg (Forall_nil_2 _))
              (Forall_cons_2 _ _ _ (within_self _ _ _ Hg) (Forall_nil_2 _))
              _ _ Ho) as (r & -> & Hr).
  exists r. auto.
Qed.

Lemma cross_census (N : Z) (k : nat) (r : region) (row col : Z) :
  good_at N (S (S k)) r -> on_cross r row col ->
  count_writes row col (flat_map region_accesses (levels (S (S k)) [r]))
  = 2%nat /\
  exists r1 r2,
    r1 <> r2 /\
    In (Some r1, Write row col)
       (flat_map region_accesses (levels (S (S k)) [r])) /\
    In (Some r2, Write row col)
       (flat_map region_accesses (levels (S (S k)) [r])).
Proof.
  intros Hg Hcross.
  pose proof (good_at_children _ _ _ Hg) as Hkids.
  destruct Hg as (Hx & Hy & _).
  rewrite (pow2_S (S k)) in Hx, Hy. pose proof (pow2_pos (S k)) as Hh.
  set (h := pow2 (S k)) in *.
  assert (Hcx : (x0 r + x1 r) / 2 = x0 r + h) by (apply midpoint; lia).
  assert (Hcy : (y0 r + y1 r) / 2 = y0 r + h) by (apply midpoint; lia).
  unfold on_cross in Hcross. rewrite Hcx, Hcy in Hcross.
  assert (Ekids : children r
                  = [Region (x0 r) (y0 r) (x0 r + h) (y0 r + h) (roughness r / 2);
                     Region (x0 r + h) (y0 r) (x1 r) (y0 r + h) (roughness r / 2);
                     Region (x0 r) (y0 r + h) (x0 r + h) (y1 r) (roughness r / 2);
                     Region (x0 r + h) (y0 r + h) (x1 r) (y1 r) (roughness r / 2)]).
  { unfold children. cbv zeta. rewrite Hcx, Hcy. reflexivity. }
  rewrite Ekids in Hkids.
  apply Forall_cons in Hkids as [Ga Hkids].
  apply Forall_cons in Hkids as [Gb Hkids].
  apply Forall_cons in Hkids as [Gc Hkids].
  apply Forall_cons in Hkids as [Gd _].
  split.
  - pose proof (subtree_census N k _ row col Ga) as Ca.
    pose proof (subtree_census N k _ row col Gb) as Cb.
    pose proof (subtree_census N k _ row col Gc) as Cc.
    pose proof (subtree_census N k _ row col Gd) as Cd.
    rewrite (levels_count_single row col (S k) r _ _ _ _ Ekids).
    destruct (own_count r h row col) as [H1 H0]; try lia.
    cbv zeta in H1, H0.
    assert (Hrow : row < y0 r + h \/ row = y0 r + h \/ y0 r + h < row) by lia.
    assert (Hcol : col < x0 r + h \/ col = x0 r + h \/ x0 r + h < col) by lia.
    destruct Hrow as [Hrow|[Hrow|Hrow]];
      destruct Hcol as [Hcol|[Hcol|Hcol]];
      try (exfalso; lia);
      use_own H1 H0;
      use_census Ca; use_census Cb; use_census Cc; use_census Cd;
      lia.
  - assert (Hup : forall c e,
               In c (children r) ->
               In e (flat_map region_accesses (levels (S k) [c])) ->
               In e (flat_map region_accesses (levels (S (S k)) [r]))).
    { intros c e Hc He.
      change (levels (S (S k)) [r])
        with ([r] ++ levels (S k) (flat_map children [r])).
      rewrite flat_accesses_app. apply in_or_app. right.
      change (flat_map children [r]) with (children r ++ []).
      rewrite app_nil_r.
      apply in_split in Hc as (l1 & l2 & ->).
      apply levels_In_app. right.
      change (c :: l2) with ([c] ++ l2). apply levels_In_app. left. exact He. }
    rewrite Ekids in Hup.
    assert (Hpick : forall ca cb,
               In ca [Region (x0 r) (y0 r) (x0 r + h) (y0 r + h) (roughness r / 2);
                      Region (x0 r + h) (y0 r) (x1 r) (y0 r + h) (roughness r / 2);
                      Region (x0 r) (y0 r + h) (x0 r + h) (y1 r) (roughness r / 2);
                      Region (x0 r + h) (y0 r + h) (x1 r) (y1 r) (roughness r / 2)] ->
               In cb [Region (x0 r) (y0 r) (x0 r + h) (y0 r + h) (roughness r / 2);
                      Region (x0 r + h) (y0 r) (x1 r) (y0 r + h) (roughness r / 2);
                      Region (x0 r) (y0 r + h) (x0 r + h) (y1 r) (roughness r / 2);
                      Region (x0 r + h) (y0 r + h) (x1 r) (y1 r) (roughness r / 2)] ->
               (exists ra, within ca ra /\
                  In (Some ra, Write row col)
                     (flat_map region_accesses (levels (S k) [ca]))) ->
               (exists rb, within cb rb /\
                  In (Some rb, Write row col)
                     (flat_map region_accesses (levels (S k) [cb]))) ->
               (y1 ca <= y0 cb \/ x1 ca <= x0 cb) ->
               exists r1 r2,
                 r1 <> r2 /\
                 In (Some r1, Write row col)
                    (flat_map region_accesses (levels (S (S k)) [r])) /\
                 In (Some r2, Write row col)
                    (flat_map region_accesses (levels (S (S k)) [r]))).
    { intros ca cb Hca Hcb (ra & Wa & Ia) (rb & Wb & Ib) Hsep.
      exists ra, rb. split_and!.
      - intros ->. unfold within in Wa, Wb. lia.
      - exact (Hup _ _ Hca Ia).
      - exact (Hup _ _ Hcb Ib). }
    destruct Hcross as [(Hrow & Hcol & Hne)|(Hcol & Hrow & Hne)].
    + assert (Hside : col < x0 r + h \/ x0 r + h < col) by lia.
      destruct Hside as [Hl|Hr].
      * eapply Hpick; cycle 2;
          [ apply (border_writer N k _ row col Ga); simpl; lia
                 | apply (border_writer N k _ row col Gc); simpl; lia
                 | simpl; lia | simpl; tauto | simpl; tauto ].
      * eapply Hpick; cycle 2;
          [ apply (border_writer N k _ row col Gb); simpl; lia
                 | apply (border_writer N k _ row col Gd); simpl; lia
                 | simpl; lia | simpl; tauto | simpl; tauto ].
    + assert (Hside : row < y0 r + h \/ y0 r + h < row) by lia.
      destruct Hside as [Hl|Hr].
      * eapply Hpick; cycle 2;
          [ apply (border_writer N k _ row col Ga); simpl; lia
                 | apply (border_writer N k _ row col Gb); simpl; lia
                 | simpl; lia | simpl; tauto | simpl; tauto ].
      * eapply Hpick; cycle 2;
          [ apply (border_writer N k _ row col Gc); simpl; lia
                 | apply (border_writer N k _ row col Gd); simpl; lia
                 | simpl; lia | simpl; tauto | simpl; tauto ].
Qed.

Section Writers.

Context {G : Type} `{RandomSource G}.

(** C1, as the code has it.  For [n >= 1] every cell of the grid other
    than the four corners is assigned at least once and at most twice during
    the run; the cells on the border of the grid are assigned exactly once,
    and for [n = 1] every such cell is assigned exactly once.  For [n >= 2]
    every cell of the middle row and of the middle column of the grid, the
    centre and the two ends of each apart, is assigned exactly twice, by two
    different regions (these cells lie on the edges the four quadrants
    share). *)
Theorem cells_written_once_or_twice (n rho : Z) (g : G) :
  1 <= n -> 0 <= rho ->
  exists st',
    run (fuel_of n) n rho g = Some (Ok st') /\
    (forall row col,
        in_grid (2 ^ n + 1) row col -> ~ grid_corner n row col ->
        (1 <= count_writes row col (trace st') <= 2)%nat /\
        (row = 0 \/ row = 2 ^ n \/ col = 0 \/ col = 2 ^ n ->
         count_writes row col (trace st') = 1%nat) /\
        (n = 1 -> count_writes row col (trace st') = 1%nat)) /\
    (2 <= n ->
     forall row col,
       (row = 2 ^ (n - 1) /\ 0 < col < 2 ^ n /\ col <> 2 ^ (n - 1)) \/
       (col = 2 ^ (n - 1) /\ 0 < row < 2 ^ n /\ row <> 2 ^ (n - 1)) ->
       count_writes row col (trace st') = 2%nat /\
       exists r1 r2,
         r1 <> r2 /\
         In (Some r1, Write row col) (trace st') /\
         In (Some r2, Write row col) (trace st')).
Proof.
  intros Hn Hrho.
  destruct (run_ok n rho g Hn Hrho)
    as (st0 & st' & _ & Hpost & _ & _ & Hrun & Hrw).
  destruct Hpost as (c1 & c2 & c3 & c4 & hm1 & hm2 & hm3 & _ & _ & _ & _ & Htr0).
  exists st'. split; [exact Hrun|].
  pose proof (good_at_root n rho Hn Hrho) as Hroot.
  replace (Z.to_nat n) with (S (Z.to_nat (n - 1))) in Hrw by lia.
  split.
  - intros row col [Hr Hc] Hnc.
    rewrite <- (count_writes_rw row col (trace st')), Hrw, count_writes_app.
    rewrite Htr0, (seed_writes_count _ _ _ _ _ _ _ _ Hnc).
    pose proof (subtree_census (2 ^ n) (Z.to_nat (n - 1)) _ row col Hroot)
      as Hcensus.
    destruct Hcensus as (_ & _ & Hb & Hi). cbn [x0 y0 x1 y1] in Hb, Hi.
    unfold grid_corner in Hnc. cbn [Nat.add].
    assert (Hcase : (row = 0 \/ row = 2 ^ n \/ col = 0 \/ col = 2 ^ n) \/
                    (0 < row < 2 ^ n /\ 0 < col < 2 ^ n)) by lia.
    destruct Hcase as [Hborder|Hinside].
    + rewrite Hb by lia. lia.
    + destruct (Hi Hinside) as [Hbounds Hleaf]. split_and!; [lia|lia|lia|].
      intros ->. apply Hleaf. reflexivity.
  - intros Hn2 row col Hmid.
    assert (Ek : Z.to_nat (n - 1) = S (Z.to_nat (n - 2))) by lia.
    rewrite Ek in Hroot, Hrw.
    assert (Ehalf : 2 ^ n = 2 * 2 ^ (n - 1)).
    { rewrite <- Z.pow_succ_r by lia. f_equal. lia. }
    assert (Hpos : 0 < 2 ^ (n - 1)) by (apply Z.pow_pos_nonneg; lia).
    assert (Hcross : on_cross (Region 0 0 (2 ^ n) (2 ^ n) rho) row col).
    { unfold on_cross. cbn [x0 y0 x1 y1].
      replace ((0 + 2 ^ n) / 2) with (2 ^ (n - 1)) by zlia. exact Hmid. }
    destruct (cross_census _ _ _ row col Hroot Hcross)
      as (Hcount & r1 & r2 & Hne & I1 & I2).
    assert (Hnc : ~ grid_corner n row col) by (unfold grid_corner; lia).
    split.
    + rewrite <- (count_writes_rw row col (trace st')), Hrw, count_writes_app.
      rewrite Htr0, (seed_writes_count _ _ _ _ _ _ _ _ Hnc), Hcount.
      reflexivity.
    + assert (Hin : forall e,
                 In e (flat_map region_accesses
                         (levels (S (S (Z.to_nat (n - 2))))
                            [Region 0 0 (2 ^ n) (2 ^ n) rho])) ->
                 In e (trace st')).
      { intros e He.
        assert (He' : In e (rw (trace st')))
          by (rewrite Hrw; apply in_or_app; right; exact He).
        unfold rw in He'. apply filter_In in He'. tauto. }
      exists r1, r2. auto.
Qed.

End Writers.

(** C1, as the specification states it, fails: in the run with [n = 2],
    roughness 4 and the seeds 10, 20, 30, 40 the cell [(1, 2)], the midpoint
    of the edge shared by the first two quadrants, is assigned by both. *)
Lemma shared_edge_written_twice :
  exists st',
    run (fuel_of 2) 2 4 [10; 20; 30; 40] = Some (Ok st') /\
    count_writes 1 2 (trace st') = 2%nat /\
    In (Some (Region 0 0 2 2 2), Write 1 2) (trace st') /\
    In (Some (Region 2 0 4 2 2), Write 1 2) (trace st') /\
    ~ single_writer 2 (trace st').
Proof.
  eexists. split; [vm_compute; reflexivity|].
  split; [vm_compute; reflexivity|].
  split; [vm_compute; tauto|].
  split; [vm_compute; tauto|].
  intros [Honce _].
  specialize (Honce 1 2 ltac:(unfold in_grid; simpl; lia)
                ltac:(unfold grid_corner; simpl; lia)).
  vm_compute in Honce. discriminate.
Qed.

(** ** The exponent *)

Section Exponent.

Context {G : Type} `{RandomSource G}.

Lemma run_exponent_zero (rho : Z) (g : G) :
  0 <= rho ->
  exists st', run 2 0 rho g = Some (Ok st') /\ shape 2 (heightmap st').
Proof.
  intros Hrho.
  destruct (start_ok 0 rho g) as (st0 & Hstart & Hpost); [lia|].
  pose proof (start_post_shape _ _ _ _ Hpost) as Hshape.
  destruct Hpost as (c1 & c2 & c3 & c4 & hm1 & hm2 & hm3 & _ & _ & _ & Hq & _).
  change (2 ^ 0) with 1 in *. change (1 + 1) with 2 in *.
  destruct (iteration_ok 2 st0 _ [] Hq Hshape) as (st1 & Hit & Hp);
    simpl; try lia.
  pose proof (iteration_post_q _ _ _ _ _ Hp) as Hq1. simpl in Hq1.
  exists st1. split; [|exact (iteration_post_shape _ _ _ _ _ Hp)].
  unfold run. rewrite Hstart. simpl. rewrite Hq, Hit, Hq1. reflexivity.
Qed.

(** C3, as the code has it.  The function does not validate [n] and defines
    no [InvalidSizeError].  A negative exponent makes the allocation of the
    array fail (numpy refuses the non-integer size with a [TypeError]) and
    no grid is returned; the exponent 0 is accepted, and a 2 by 2 grid is
    returned. *)
Theorem negative_exponent_rejected (n rho : Z) (g : G) (fuel : nat) :
  (n < 0 -> midpoint_displacement_2d fuel n rho g = Some (Raise TypeError)) /\
  (n = 0 -> 0 <= rho ->
   exists hm, midpoint_displacement_2d 2 n rho g = Some (Ok hm) /\ shape 2 hm).
Proof.
  split.
  - intros Hn. unfold midpoint_displacement_2d, run, start, allocate.
    destruct (Z.ltb_spec n 0) as [_|Hge]; [reflexivity|lia].
  - intros -> Hrho. destruct (run_exponent_zero rho g Hrho) as (st' & Hrun & Hs).
    exists (heightmap st'). split; [|exact Hs].
    unfold midpoint_displacement_2d. rewrite Hrun. reflexivity.
Qed.

End Exponent.

(** C3, as the specification states it, fails: with the exponent 0 a grid
    is returned. *)
Lemma exponent_zero_accepted :
  midpoint_displacement_2d 2 0 0 [1; 2; 3; 4] = Some (Ok [[2; 3]; [3; 4]]) /\
  ~ (forall n : Z, n < 1 ->
       forall (fuel : nat) (rho : Z) (g : list Z) (hm : grid),
         midpoint_displacement_2d fuel n rho g <> Some (Ok hm)).
Proof.
  assert (E : midpoint_displacement_2d 2 0 0 [1; 2; 3; 4]
              = Some (Ok [[2; 3]; [3; 4]])) by (vm_compute; reflexivity).
  split; [exact E|].
  intros Hall. exact (Hall 0 ltac:(lia) _ _ _ _ E).
Qed.

(** ** Arrays with the same cells *)

Lemma grid_ext (side : Z) (a b : grid) :
  shape side a -> shape side b ->
  (forall r c, in_grid side r c -> hm_get a r c = hm_get b r c) ->
  a = b.
Proof.
  intros Ha Hb Hget. apply list_eq. intros i.
  destruct (decide (Z.of_nat i < side)) as [Hi|Hi].
  - destruct (shape_lookup side a i Ha Hi) as (la & Ela & Hla).
    destruct (shape_lookup side b i Hb Hi) as (lb & Elb & Hlb).
    rewrite Ela, Elb. f_equal. apply list_eq. intros j.
    destruct (decide (Z.of_nat j < side)) as [Hj|Hj].
    + assert (Hin : in_grid side (Z.of_nat i) (Z.of_nat j))
        by (unfold in_grid; lia).
      specialize (Hget _ _ Hin).
      rewrite (hm_get_eq side a), (hm_get_eq side b) in Hget by assumption.
      rewrite !Nat2Z.id, Ela, Elb in Hget. exact Hget.
    + rewrite !(proj2 (lookup_ge_None _ _)) by lia. reflexivity.
  - destruct Ha as [Hla _], Hb as [Hlb _].
    rewrite !(proj2 (lookup_ge_None _ _)) by lia. reflexivity.
Qed.

(** ** The worked example of the specification *)

Ltac chase :=
  repeat match goal with
         | S : stored _ _ _ _ _ ?hm' |- context [hm_get ?hm' _ _] =>
             first [ rewrite (stored_get_same _ _ _ _ _ _ S)
                       by (unfold in_grid; lia)
                   | rewrite (stored_get_other _ _ _ _ _ _ _ _ S)
                       by (unfold in_grid; lia) ]
         end.

Section Example.

Context {G : Type} `{RandomSource G}.

(** C4.  With [n = 1], roughness 0 and the corner seeds 10, 20, 30, 40 the
    function returns the 3 by 3 grid with top midpoint 15, left midpoint
    20, centre 25, right midpoint 30 and bottom midpoint 35; the loop makes
    one pass, for the root region, after which the queue is empty, and
    nothing but the root region is ever appended to the queue. *)
Theorem worked_example (g : G) :
  corner_seeds g = (10, 20, 30, 40) ->
  exists st',
    run 2 1 0 g = Some (Ok st') /\
    heightmap st' = [[10; 15; 20]; [20; 25; 30]; [30; 35; 40]] /\
    q st' = [] /\
    forall o c, In (o, Enqueue c) (trace st') ->
                o = None /\ c = Region 0 0 2 2 0.
Proof.
  intros Hseeds.
  destruct (start_ok 1 0 g) as (st0 & Hstart & Hpost); [lia|].
  pose proof (start_post_shape _ _ _ _ Hpost) as Hshape.
  destruct Hpost as (c1 & c2 & c3 & c4 & hm1 & hm2 & hm3 & Hc & _
                     & (S1 & S2 & S3 & S4) & Hq & Htr).
  rewrite Hseeds in Hc. injection Hc as <- <- <- <-.
  change (2 ^ 1) with 2 in *. change (2 + 1) with 3 in *.
  destruct (iteration_ok 3 st0 _ [] Hq Hshape) as (st1 & Hit & Hp);
    simpl; try lia.
  pose proof (iteration_post_shape _ _ _ _ _ Hp) as Hshape1.
  destruct Hp as (tl & tr & bl & br & n1 & n2 & n3 & n4 & n5
                  & hm4 & hm5 & hm6 & hm7
                  & (Rtl & Rtr & Rbl & Rbr) & (N1 & N2 & N3 & N4 & N5)
                  & (W1 & W2 & W3 & W4 & W5) & Hq1 & _ & Htr1).
  cbn [x0 y0 x1 y1 roughness] in *.
  change ((0 + 2) / 2) with 1 in *.
  assert (Etl : hm_get (heightmap st0) 0 0 = Some 10)
    by (chase; reflexivity).
  assert (Etr : hm_get (heightmap st0) 0 2 = Some 20)
    by (chase; reflexivity).
  assert (Ebl : hm_get (heightmap st0) 2 0 = Some 30)
    by (chase; reflexivity).
  assert (Ebr : hm_get (heightmap st0) 2 2 = Some 40)
    by (chase; reflexivity).
  rewrite Etl in Rtl. rewrite Etr in Rtr. rewrite Ebl in Rbl. rewrite Ebr in Rbr.
  injection Rtl as <-. injection Rtr as <-.
  injection Rbl as <-. injection Rbr as <-.
  assert (n1 = 0) as -> by lia. assert (n2 = 0) as -> by lia.
  assert (n3 = 0) as -> by lia. assert (n4 = 0) as -> by lia.
  assert (n5 = 0) as -> by lia.
  exists st1. split_and!.
  - unfold run. rewrite Hstart. simpl. rewrite Hq, Hit, Hq1. reflexivity.
  - apply (grid_ext 3); [exact Hshape1| |].
    + split; [reflexivity|]. intros line Hin. simpl in Hin.
      repeat (destruct Hin as [<-|Hin]; [reflexivity|]). destruct Hin.
    + intros r c [Hr Hc].
      assert (Cr : r = 0 \/ r = 1 \/ r = 2) by lia.
      assert (Cc : c = 0 \/ c = 1 \/ c = 2) by lia.
      destruct Cr as [-> | [-> | ->]]; destruct Cc as [-> | [-> | ->]];
        chase; try rewrite Etl; try rewrite Etr; try rewrite Ebl;
        try rewrite Ebr; reflexivity.
  - exact Hq1.
  - intros o c Hin. rewrite Htr1, Htr in Hin.
    apply in_app_or in Hin as [Hin|Hin].
    + apply in_seed_log in Hin as [-> Hin]. split; [reflexivity|].
      destruct Hin as [[v [=]]|[(r' & c' & [=] & _)|[= ->]]]. reflexivity.
    + apply in_block_enqueue in Hin as (_ & Htest & _). discriminate.
Qed.

End Example.

(** ** Determinism

    Two random sources, possibly of different types, produce the same
    sequence of draws when their states are related by a relation [R] that
    every draw preserves while returning the same number on both sides. *)

Section Determinism.

Context {G1 G2 : Type} `{RandomSource G1} `{RandomSource G2}.

Variable R : G1 -> G2 -> Prop.

Hypothesis R_next :
  forall lo hi g1 g2,
    R g1 g2 ->
    fst (next_int lo hi g1) = fst (next_int lo hi g2) /\
    R (snd (next_int lo hi g1)) (snd (next_int lo hi g2)).

Definition sim (st1 : state G1) (st2 : state G2) : Prop :=
  heightmap st1 = heightmap st2 /\ q st1 = q st2 /\ cur st1 = cur st2 /\
  trace st1 = trace st2 /\ R (rng st1) (rng st2).

Definition sim_result {A : Type}
    (r1 : result (A * state G1)) (r2 : result (A * state G2)) : Prop :=
  match r1, r2 with
  | Ok (a1, st1), Ok (a2, st2) => a1 = a2 /\ sim st1 st2
  | Raise e1, Raise e2 => e1 = e2
  | _, _ => False
  end.

Definition sim_M {A : Type} (m1 : M (G := G1) A) (m2 : M (G := G2) A) : Prop :=
  forall st1 st2, sim st1 st2 -> sim_result (m1 st1) (m2 st2).

Lemma sim_bind {A B : Type} (m1 : M (G := G1) A) (m2 : M (G := G2) A)
    (k1 : A -> M (G := G1) B) (k2 : A -> M (G := G2) B) :
  sim_M m1 m2 -> (forall a, sim_M (k1 a) (k2 a)) ->
  sim_M (bind m1 k1) (bind m2 k2).
Proof.
  intros Hm Hk st1 st2 Hs. unfold bind. specialize (Hm st1 st2 Hs).
  destruct (m1 st1) as [[a1 s1]|e1], (m2 st2) as [[a2 s2]|e2];
    simpl in Hm; try contradiction.
  - destruct Hm as [-> Hs']. apply Hk. exact Hs'.
  - exact Hm.
Qed.

Lemma sim_ret {A : Type} (a : A) : sim_M (ret a) (ret a).
Proof. intros st1 st2 Hs. simpl. auto. Qed.

Lemma sim_random_randint (lo hi : Z) :
  sim_M (random_randint lo hi) (random_randint lo hi).
Proof.
  intros st1 st2 (Hh & Hq & Hc & Ht & Hr). unfold random_randint.
  destruct (hi <? lo); [reflexivity|].
  destruct (R_next lo hi _ _ Hr) as [Efst Hr'].
  destruct (next_int lo hi (rng st1)) as [v1 g1'].
  destruct (next_int lo hi (rng st2)) as [v2 g2'].
  simpl in Efst, Hr'. subst v2. simpl.
  split; [reflexivity|]. unfold sim. simpl. rewrite Hc, Ht. auto.
Qed.

Lemma sim_getitem (row col : Z) : sim_M (getitem row col) (getitem row col).
Proof.
  intros st1 st2 (Hh & Hq & Hc & Ht & Hr). unfold getitem. rewrite Hh.
  destruct (hm_get (heightmap st2) row col); [|reflexivity].
  simpl. split; [reflexivity|]. unfold sim. simpl. rewrite Hc, Ht. auto.
Qed.

Lemma sim_setitem (row col v : Z) :
  sim_M (setitem row col v) (setitem row col v).
Proof.
  intros st1 st2 (Hh & Hq & Hc & Ht & Hr). unfold setitem. rewrite Hh.
  destruct (hm_set (heightmap st2) row col v); [|reflexivity].
  simpl. split; [reflexivity|]. unfold sim. simpl. rewrite Hc, Ht. auto.
Qed.

Lemma sim_popleft : sim_M popleft popleft.
Proof.
  intros st1 st2 (Hh & Hq & Hc & Ht & Hr). unfold popleft. rewrite Hq.
  destruct (q st2); [reflexivity|].
  simpl. split; [reflexivity|]. unfold sim. simpl. auto.
Qed.

Lemma sim_append (r : region) : sim_M (append r) (append r).
Proof.
  intros st1 st2 (Hh & Hq & Hc & Ht & Hr). unfold append.
  simpl. split; [reflexivity|]. unfold sim. simpl. rewrite Hq, Hc, Ht. auto.
Qed.

Lemma sim_iteration : sim_M iteration iteration.
Proof.
  unfold iteration, my_randint.
  repeat first [ apply sim_bind; [|intros ?]
               | apply sim_popleft | apply sim_getitem | apply sim_setitem
               | apply sim_random_randint | apply sim_append | apply sim_ret
               | match goal with |- sim_M (if ?b then _ else _) _ => destruct b end
               | progress cbv zeta ].
Qed.

Lemma sim_setup (n rho : Z) : sim_M (setup n rho) (setup n rho).
Proof.
  unfold setup.
  repeat first [ apply sim_bind; [|intros ?]
               | apply sim_setitem | apply sim_random_randint
               | apply sim_append | progress cbv zeta ].
Qed.

Lemma sim_drain (fuel1 : nat) :
  forall (fuel2 : nat) (st1 : state G1) (st2 : state G2) o1 o2,
    sim st1 st2 ->
    drain fuel1 st1 = Some o1 -> drain fuel2 st2 = Some o2 ->
    match o1, o2 with
    | Ok s1, Ok s2 => sim s1 s2
    | Raise e1, Raise e2 => e1 = e2
    | _, _ => False
    end.
Proof.
  induction fuel1 as [|fuel1 IH]; intros fuel2 st1 st2 o1 o2 Hs D1 D2;
    [discriminate|].
  destruct fuel2 as [|fuel2]; [discriminate|].
  simpl in D1, D2.
  pose proof Hs as (_ & Hq & _). rewrite Hq in D1.
  destruct (q st2) as [|r rest].
  - injection D1 as <-. injection D2 as <-. exact Hs.
  - pose proof (sim_iteration st1 st2 Hs) as Hit.
    destruct (iteration st1) as [[u1 s1]|e1], (iteration st2) as [[u2 s2]|e2];
      simpl in Hit; try contradiction.
    + destruct Hit as [_ Hs']. exact (IH _ _ _ _ _ Hs' D1 D2).
    + injection D1 as <-. injection D2 as <-. exact Hit.
Qed.

(** C9.  Two runs with the same [n] and the same initial roughness, on
    random sources that produce the same sequence of draws, return the same
    outcome, and so the same matrix cell for cell, whatever fuel each of
    them is given. *)
Theorem same_draws_same_grid (n rho : Z) (g1 : G1) (g2 : G2)
    (fuel1 fuel2 : nat) (o1 o2 : result grid) :
  R g1 g2 ->
  midpoint_displacement_2d fuel1 n rho g1 = Some o1 ->
  midpoint_displacement_2d fuel2 n rho g2 = Some o2 ->
  o1 = o2.
Proof.
  intros Hr. unfold midpoint_displacement_2d, run, start, allocate.
  destruct (n <? 0).
  - intros [= <-] [= <-]. reflexivity.
  - set (a1 := {| heightmap := zeros (2 ^ n + 1); q := []; rng := g1;
                  cur := None; trace := [] |}).
    set (a2 := {| heightmap := zeros (2 ^ n + 1); q := []; rng := g2;
                  cur := None; trace := [] |}).
    assert (Ha : sim a1 a2) by (unfold sim; simpl; auto).
    pose proof (sim_setup n rho a1 a2 Ha) as Hsetup.
    destruct (setup n rho a1) as [[u1 s1]|e1], (setup n rho a2) as [[u2 s2]|e2];
      simpl in Hsetup; try contradiction.
    + destruct Hsetup as [_ Hs].
      destruct (drain fuel1 s1) as [r1|] eqn:D1; [|discriminate].
      destruct (drain fuel2 s2) as [r2|] eqn:D2; [|discriminate].
      pose proof (sim_drain _ _ _ _ _ _ Hs D1 D2) as Hd.
      destruct r1 as [t1|x1], r2 as [t2|x2]; try contradiction;
        intros [= <-] [= <-].
      * destruct Hd as [-> _]. reflexivity.
      * subst. reflexivity.
    + subst. intros [= <-] [= <-]. reflexivity.
Qed.

End Determinism.

(** ** Zero roughness: midpoints are plain averages *)

Lemma divide_apart (s u v : Z) :
  0 < s -> (s | u) -> (s | v) -> u = v \/ u + s <= v \/ v + s <= u.
Proof.
  intros Hs [a ->] [b ->].
  assert (C : a = b \/ a + 1 <= b \/ b + 1 <= a) by lia.
  destruct C as [->|[C|C]]; [left; reflexivity|right; left|right; right]; nia.
Qed.

Lemma aligned_le (k j : nat) (row col : Z) :
  (k <= j)%nat -> aligned (pow2 j) row col -> aligned (pow2 k) row col.
Proof.
  induction 1 as [|j _ IH]; [auto|].
  intros Ha. apply IH, aligned_half, Ha.
Qed.

Lemma aligned_not_written (N : Z) (k : nat) (r : region) (row col : Z) :
  good_at N (S k) r -> aligned (pow2 (S k)) row col ->
  ~ In (row, col) (region_writes r).
Proof. intros Hg Ha Hin. exact (writes_unaligned _ _ _ _ _ Hg Hin Ha). Qed.

Lemma writes_aligned_half (N : Z) (k : nat) (r : region) (row col : Z) :
  good_at N (S k) r -> In (row, col) (region_writes r) ->
  aligned (pow2 k) row col.
Proof.
  intros (Hx & Hy & Dx & Dy & _) Hin.
  rewrite pow2_S in Hx, Hy.
  pose proof (midpoint _ _ _ Hx) as Hcx.
  pose proof (midpoint _ _ _ Hy) as Hcy.
  pose proof (divide_half _ _ Dx) as Dx0.
  pose proof (divide_half _ _ Dy) as Dy0.
  pose proof (divide_plus_half _ _ Dx) as Dxh.
  pose proof (divide_plus_half _ _ Dy) as Dyh.
  assert (Dx1 : (pow2 k | x1 r)).
  { replace (x1 r) with ((x0 r + pow2 k) + pow2 k) by lia.
    apply Z.divide_add_r; [exact Dxh|apply Z.divide_refl]. }
  assert (Dy1 : (pow2 k | y1 r)).
  { replace (y1 r) with ((y0 r + pow2 k) + pow2 k) by lia.
    apply Z.divide_add_r; [exact Dyh|apply Z.divide_refl]. }
  unfold region_writes in Hin. cbv zeta in Hin. rewrite Hcx, Hcy in Hin.
  simpl in Hin. unfold aligned.
  repeat (destruct Hin as [[= <- <-]|Hin]; [split; assumption|]).
  destruct Hin.
Qed.




Section Zero.

Context {G : Type}.





End Zero.

Section ZeroRun.

Context {G : Type} `{RandomSource G}.


End ZeroRun.

(** ** The theorems at concrete inputs

    The random source is the list-driven one; the runs have [n = 2] unless
    the statement fixes the exponent. *)

Lemma cells_written_once_or_twice_witness :
  1 <= 2 /\ 0 <= 4 /\ 2 <= 2 /\
  exists st',
    run (fuel_of 2) 2 4 [10; 20; 30; 40; 3; 1; 4; 1; 5] = Some (Ok st') /\
    (forall row col,
        in_grid (2 ^ 2 + 1) row col -> ~ grid_corner 2 row col ->
        (1 <= count_writes row col (trace st') <= 2)%nat /\
        (row = 0 \/ row = 2 ^ 2 \/ col = 0 \/ col = 2 ^ 2 ->
         count_writes row col (trace st') = 1%nat) /\
        (2 = 1 -> count_writes row col (trace st') = 1%nat)) /\
    (forall row col,
        (row = 2 ^ (2 - 1) /\ 0 < col < 2 ^ 2 /\ col <> 2 ^ (2 - 1)) \/
        (col = 2 ^ (2 - 1) /\ 0 < row < 2 ^ 2 /\ row <> 2 ^ (2 - 1)) ->
        count_writes row col (trace st') = 2%nat /\
        exists r1 r2,
          r1 <> r2 /\
          In (Some r1, Write row col) (trace st') /\
          In (Some r2, Write row col) (trace st')).
Proof.
  split; [lia|]. split; [lia|]. split; [lia|].
  destruct (cells_written_once_or_twice
              (G := list Z) 2 4 [10; 20; 30; 40; 3; 1; 4; 1; 5]
              ltac:(lia) ltac:(lia)) as (st' & Hrun & Hall & Htwice).
  exists st'. split; [exact Hrun|]. split; [exact Hall|].
  apply Htwice. lia.
Defined.


Lemma negative_exponent_rejected_witness :
  -1 < 0 /\ 0 <= 3 /\
  midpoint_displacement_2d 5 (-1) 3 [1; 2; 3; 4] = Some (Raise TypeError) /\
  exists hm,
    midpoint_displacement_2d 2 0 3 [1; 2; 3; 4] = Some (Ok hm) /\ shape 2 hm.
Proof.
  split; [lia|]. split; [lia|]. split.
  - apply (proj1 (negative_exponent_rejected (G := list Z) (-1) 3 [1; 2; 3; 4] 5)).
    lia.
  - apply (proj2 (negative_exponent_rejected (G := list Z) 0 3 [1; 2; 3; 4] 5));
      [reflexivity|lia].
Defined.

Lemma worked_example_witness :
  corner_seeds [10; 20; 30; 40] = (10, 20, 30, 40) /\
  exists st',
    run 2 1 0 [10; 20; 30; 40] = Some (Ok st') /\
    heightmap st' = [[10; 15; 20]; [20; 25; 30]; [30; 35; 40]] /\
    q st' = [] /\
    forall o c, In (o, Enqueue c) (trace st') ->
                o = None /\ c = Region 0 0 2 2 0.
Proof.
  split; [reflexivity|].
  apply (worked_example (G := list Z) [10; 20; 30; 40]). reflexivity.
Defined.



Lemma regions_square_halving_witness :
  1 <= 2 /\ 0 <= 5 /\
  exists st',
    run (fuel_of 2) 2 5 [10; 20; 30; 40; 3; 1; 4; 1; 5] = Some (Ok st') /\
    forall o c, In (o, Enqueue c) (trace st') -> enqueue_ok 2 5 o c.
Proof.
  split; [lia|]. split; [lia|].
  apply (regions_square_halving (G := list Z) 2 5); lia.
Defined.

Lemma accesses_in_bounds_witness :
  1 <= 2 /\
  exists o,
    run (fuel_of 2) 2 4 [10; 20; 30; 40; 3; 1; 4; 1; 5] = Some o /\
    o <> Raise IndexError /\
    (0 <= 4 -> exists st', o = Ok st') /\
    forall st', o = Ok st' ->
      forall ow row col,
        In (ow, Read row col) (trace st') \/ In (ow, Write row col) (trace st') ->
        in_grid (2 ^ 2 + 1) row col.
Proof.
  split; [lia|].
  apply (accesses_in_bounds (G := list Z) 2 4). lia.
Defined.

Lemma same_draws_same_grid_witness :
  exists o1 o2,
    midpoint_displacement_2d 16 2 4 [10; 20; 30; 40; 3; 1; 4; 1; 5] = Some o1 /\
    midpoint_displacement_2d 40 2 4 [10; 20; 30; 40; 3; 1; 4; 1; 5] = Some o2 /\
    o1 = o2.
Proof.
  eexists. eexists.
  split; [vm_compute; reflexivity|]. split; [vm_compute; reflexivity|].
  apply (same_draws_same_grid (G1 := list Z) (G2 := list Z) eq
           (fun lo hi g1 g2 (E : g1 = g2) =>
              match E with eq_refl => conj eq_refl eq_refl end)
           2 4 [10; 20; 30; 40; 3; 1; 4; 1; 5] [10; 20; 30; 40; 3; 1; 4; 1; 5]
           16 40);
    [reflexivity|vm_compute; reflexivity|vm_compute; reflexivity].
Defined.

Lemma corners_preserved_witness :
  1 <= 2 /\ 0 <= 4 /\
  exists st' c1 c2 c3 c4,
    run (fuel_of 2) 2 4 [10; 20; 30; 40; 3; 1; 4; 1; 5] = Some (Ok st') /\
    corner_seeds [10; 20; 30; 40; 3; 1; 4; 1; 5] = (c1, c2, c3, c4) /\
    (hm_get (heightmap st') 0 0 = Some c1 /\
     hm_get (heightmap st') 0 (2 ^ 2) = Some c2 /\
     hm_get (heightmap st') (2 ^ 2) 0 = Some c3 /\
     hm_get (heightmap st') (2 ^ 2) (2 ^ 2) = Some c4) /\
    forall r row col,
      In (Some r, Write row col) (trace st') -> ~ grid_corner 2 row col.
Proof.
  split; [lia|]. split; [lia|].
  apply (corners_preserved (G := list Z) 2 4); lia.
Defined.

(** * Further properties of the generator and of the clipping *)

(** ** The returned array *)

Section Shape.

Context {G : Type} `{RandomSource G}.

Lemma run_shape (n rho : Z) (g : G) :
  1 <= n -> 0 <= rho ->
  exists st',
    run (fuel_of n) n rho g = Some (Ok st') /\
    shape (2 ^ n + 1) (heightmap st').
Proof.
  intros Hn Hrho.
  destruct (run_ok n rho g Hn Hrho) as (st0 & st' & _ & Hpost & Hsteps & _ & Hrun & _).
  exists st'. split; [exact Hrun|].
  refine (steps_invariant n (fun _ st => shape (2 ^ n + 1) (heightmap st))
            _ _ _ _ _ _ Hsteps _).
  - intros k k' st _ HJ. exact HJ.
  - intros k st r rest st1 _ _ _ _ Hp. exact (iteration_post_shape _ _ _ _ _ Hp).
  - exact (start_post_shape _ _ _ _ Hpost).
Qed.

Lemma run_more_fuel (fuel fuel' : nat) (n rho : Z) (g : G) (o : result (state G)) :
  run fuel n rho g = Some o -> (fuel <= fuel')%nat ->
  run fuel' n rho g = Some o.
Proof.
  unfold run. destruct (start n rho g) as [st0|e]; [|auto].
  intros Ho Hle. eapply drain_mono; eassumption.
Qed.

(** For every exponent [n >= 0] and every roughness [>= 0] in the range in
    which the float64 cells are exact the function returns, given more than
    [4^n] units of fuel, an array of [2^n + 1] rows of [2^n + 1] entries
    each. *)
Theorem output_shape (n rho : Z) (g : G) (fuel : nat) :
  0 <= n -> exact_float64 n rho -> (fuel_of n < fuel)%nat ->
  exists hm,
    midpoint_displacement_2d fuel n rho g = Some (Ok hm) /\
    Z.of_nat (length hm) = 2 ^ n + 1 /\
    forall line, In line hm -> Z.of_nat (length line) = 2 ^ n + 1.
Proof.
  intros Hn [Hrho _] Hfuel. unfold midpoint_displacement_2d.
  destruct (Z.eq_dec n 0) as [->|Hne].
  - destruct (run_exponent_zero rho g Hrho) as (st' & Hrun & Hs).
    exists (heightmap st').
    rewrite (run_more_fuel 2 fuel 0 rho g _ Hrun)
      by (unfold fuel_of in Hfuel; simpl in Hfuel; lia).
    split; [reflexivity|]. exact Hs.
  - destruct (run_shape n rho g ltac:(lia) Hrho) as (st' & Hrun & Hs).
    exists (heightmap st').
    rewrite (run_more_fuel _ fuel n rho g _ Hrun) by lia.
    split; [reflexivity|]. exact Hs.
Qed.

End Shape.

(** ** Order and amount of work *)

Definition is_read (e : event) : bool :=
  match e.2 with Read _ _ => true | _ => false end.

Definition is_write (e : event) : bool :=
  match e.2 with Write _ _ => true | _ => false end.

Definition is_draw (e : event) : bool :=
  match e.2 with Draw _ _ _ => true | _ => false end.

(** How many events of a kind a log holds. *)
Definition count_kind (p : event -> bool) (tr : list event) : Z :=
  Z.of_nat (length (List.filter p tr)).

Lemma count_kind_app (p : event -> bool) (l1 l2 : list event) :
  count_kind p (l1 ++ l2) = count_kind p l1 + count_kind p l2.
Proof.
  unfold count_kind. rewrite List.filter_app, length_app. lia.
Qed.

Lemma count_kind_rw (p : event -> bool) (tr : list event) :
  (forall e, p e = true -> is_rw e = true) ->
  count_kind p (rw tr) = count_kind p tr.
Proof.
  intros Hp. unfold count_kind, rw. f_equal. f_equal.
  induction tr as [|e tr IH]; [reflexivity|]. simpl.
  destruct (is_rw e) eqn:Erw; simpl.
  - rewrite IH. reflexivity.
  - destruct (p e) eqn:Ep; [|exact IH].
    rewrite (Hp e Ep) in Erw. discriminate.
Qed.

Lemma count_accesses (L : list region) :
  count_kind is_read (flat_map region_accesses L) = 4 * Z.of_nat (length L) /\
  count_kind is_write (flat_map region_accesses L) = 5 * Z.of_nat (length L).
Proof.
  induction L as [|r L [IHr IHw]]; [split; reflexivity|].
  change (flat_map region_accesses (r :: L))
    with (region_accesses r ++ flat_map region_accesses L).
  rewrite !count_kind_app, IHr, IHw.
  change (count_kind is_read (region_accesses r)) with 4.
  change (count_kind is_write (region_accesses r)) with 5.
  simpl length. lia.
Qed.

Lemma count_block (r : region) (n1 n2 n3 n4 n5 : Z) :
  count_kind is_draw (block r n1 n2 n3 n4 n5) = 5 /\
  count_kind is_write (block r n1 n2 n3 n4 n5) = 5.
Proof.
  unfold block, children. destruct (2 <? y1 r - y0 r); split; reflexivity.
Qed.

(** The roughness [rho] halved once per halving of the side [2^n]. *)
Definition decayed (n rho : Z) (c : region) : Prop :=
  exists d : nat,
    (x1 c - x0 c) * 2 ^ Z.of_nat d = 2 ^ n /\
    roughness c = rho / 2 ^ Z.of_nat d.

Lemma root_decayed (n rho : Z) : decayed n rho (Region 0 0 (2 ^ n) (2 ^ n) rho).
Proof. exists 0%nat. simpl. split; [lia|]. rewrite Z.div_1_r. reflexivity. Qed.

Lemma children_decayed (N n rho : Z) (k : nat) (r c : region) :
  good_at N (S k) r -> decayed n rho r ->
  (2 <? y1 r - y0 r) = true -> In c (children r) ->
  decayed n rho c.
Proof.
  intros Hg (d & Hside & Hr) Htest Hc.
  rewrite (good_at_test _ _ _ Hg) in Htest.
  destruct k as [|k]; [discriminate|].
  pose proof (good_at_children _ _ _ Hg) as Hgc.
  rewrite Forall_forall in Hgc.
  destruct (Hgc c (proj2 (list_elem_of_In _ _) Hc)) as (Hxc & _).
  destruct Hg as (Hxr & _). rewrite (pow2_S (S k)) in Hxr.
  exists (S d). rewrite Nat2Z.inj_succ, Z.pow_succ_r by lia.
  assert (Hpos : 0 < 2 ^ Z.of_nat d) by (apply Z.pow_pos_nonneg; lia).
  split; [nia|].
  rewrite (children_roughness _ _ Hc), Hr.
  rewrite Z.div_div by lia. f_equal. lia.
Qed.

Section Work.

Context {G : Type} `{RandomSource G}.

(** The regions are processed breadth first: the reads and assignments of a
    run are, in order, the four corner assignments followed by the four
    reads and five assignments of every region of [levels], which lists the
    root, then its four quadrants, then their sixteen quadrants, and so on
    down to the regions of side 2. *)
Theorem breadth_first_log (n rho : Z) (g : G) :
  1 <= n -> 0 <= rho ->
  exists st',
    run (fuel_of n) n rho g = Some (Ok st') /\
    rw (trace st')
    = map (pair None)
        [Write 0 0; Write 0 (2 ^ n); Write (2 ^ n) 0; Write (2 ^ n) (2 ^ n)]
      ++ flat_map region_accesses
           (levels (Z.to_nat n) [Region 0 0 (2 ^ n) (2 ^ n) rho]).
Proof.
  intros Hn Hrho.
  destruct (run_ok n rho g Hn Hrho) as (st0 & st' & _ & Hpost & _ & _ & Hrun & Hrw).
  destruct Hpost as (c1 & c2 & c3 & c4 & hm1 & hm2 & hm3 & _ & _ & _ & _ & Htr0).
  exists st'. split; [exact Hrun|].
  rewrite Hrw, Htr0, rw_seed_log. reflexivity.
Qed.

(** A run with exponent [n >= 1] makes [(4^n - 1) / 3] passes through the
    loop body: it reads the array four times and assigns it five times per
    pass, after the four corner assignments, and it draws exactly one
    random number per assignment. *)
Theorem work_done (n rho : Z) (g : G) :
  1 <= n -> 0 <= rho ->
  exists st' passes,
    run (fuel_of n) n rho g = Some (Ok st') /\
    3 * passes = 4 ^ n - 1 /\
    count_kind is_read (trace st') = 4 * passes /\
    count_kind is_write (trace st') = 4 + 5 * passes /\
    count_kind is_draw (trace st') = 4 + 5 * passes.
Proof.
  intros Hn Hrho.
  destruct (run_ok n rho g Hn Hrho) as (st0 & st' & _ & Hpost & Hsteps & _ & Hrun & Hrw).
  destruct Hpost as (c1 & c2 & c3 & c4 & hm1 & hm2 & hm3 & _ & _ & _ & _ & Htr0).
  set (L := levels (Z.to_nat n) [Region 0 0 (2 ^ n) (2 ^ n) rho]) in *.
  exists st', (Z.of_nat (length L)).
  pose proof (levels_length (Z.to_nat n) [Region 0 0 (2 ^ n) (2 ^ n) rho]) as HL.
  rewrite Z2Nat.id in HL by lia. simpl length in HL. fold L in HL.
  destruct (count_accesses L) as [Hreads Hwrites].
  assert (Hw : count_kind is_write (trace st') = 4 + 5 * Z.of_nat (length L)).
  { rewrite <- (count_kind_rw is_write (trace st'))
      by (intros [o []]; unfold is_write, is_read, is_rw; simpl; congruence).
    rewrite Hrw, Htr0, rw_seed_log, count_kind_app, Hwrites. reflexivity. }
  split_and!; [exact Hrun|lia| |exact Hw|].
  - rewrite <- (count_kind_rw is_read (trace st'))
      by (intros [o []]; unfold is_write, is_read, is_rw; simpl; congruence).
    rewrite Hrw, Htr0, rw_seed_log, count_kind_app, Hreads. reflexivity.
  - rewrite <- Hw.
    refine (steps_invariant n
              (fun _ st => count_kind is_draw (trace st)
                           = count_kind is_write (trace st))
              _ _ _ _ _ _ Hsteps _).
    + intros k k' st _ HJ. exact HJ.
    + intros k st r rest st1 HJ _ _ _ Hp.
      destruct (iteration_post_trace _ _ _ _ _ Hp)
        as (n1 & n2 & n3 & n4 & n5 & _ & Htr).
      rewrite Htr, !count_kind_app, HJ.
      destruct (count_block r n1 n2 n3 n4 n5) as [-> ->]. reflexivity.
    + rewrite Htr0. reflexivity.
Qed.

(** The roughness of a region is determined by its side: a region of side
    [s] appended in a run with exponent [n] and initial roughness [rho] has
    roughness [rho // (2^n / s)], where [2^n / s] is a power of two. *)
Theorem roughness_by_side (n rho : Z) (g : G) :
  1 <= n -> 0 <= rho ->
  exists st',
    run (fuel_of n) n rho g = Some (Ok st') /\
    forall o c,
      In (o, Enqueue c) (trace st') ->
      exists d : nat,
        (x1 c - x0 c) * 2 ^ Z.of_nat d = 2 ^ n /\
        roughness c = rho / 2 ^ Z.of_nat d.
Proof.
  intros Hn Hrho.
  destruct (run_ok n rho g Hn Hrho) as (st0 & st' & _ & Hpost & Hsteps & _ & Hrun & _).
  destruct Hpost as (c1 & c2 & c3 & c4 & hm1 & hm2 & hm3 & _ & _ & _ & Hq0 & Htr0).
  exists st'. split; [exact Hrun|].
  assert (HJ : (forall c, In c (q st') -> decayed n rho c) /\
               (forall o c, In (o, Enqueue c) (trace st') -> decayed n rho c)).
  { refine (steps_invariant n
              (fun _ st => (forall c, In c (q st) -> decayed n rho c) /\
                           (forall o c, In (o, Enqueue c) (trace st) ->
                                        decayed n rho c))
              _ _ _ _ _ _ Hsteps _).
    - intros k k' st _ HJ. exact HJ.
    - intros k st r rest st1 [Hqs Htrs] Hq Hg _ Hp.
      assert (Hr : decayed n rho r) by (apply Hqs; rewrite Hq; left; reflexivity).
      pose proof (iteration_post_q _ _ _ _ _ Hp) as Hq1.
      destruct (iteration_post_trace _ _ _ _ _ Hp)
        as (n1 & n2 & n3 & n4 & n5 & _ & Htr).
      split.
      + intros c Hc. rewrite Hq1 in Hc. apply in_app_or in Hc as [Hc|Hc].
        * apply Hqs. rewrite Hq. right. exact Hc.
        * destruct (2 <? y1 r - y0 r) eqn:Et; [|destruct Hc].
          exact (children_decayed _ _ _ _ _ _ Hg Hr Et Hc).
      + intros o c Hin. rewrite Htr in Hin.
        apply in_app_or in Hin as [Hin|Hin]; [eauto|].
        apply in_block_enqueue in Hin as (_ & Ht & Hc).
        exact (children_decayed _ _ _ _ _ _ Hg Hr Ht Hc).
    - split.
      + intros c Hc. rewrite Hq0 in Hc. destruct Hc as [<-|[]].
        apply root_decayed.
      + intros o c Hin. rewrite Htr0 in Hin.
        apply in_seed_log in Hin as [_ Hin].
        destruct Hin as [[v [=]]|[(r' & c' & [=] & _)|[= ->]]].
        apply root_decayed. }
  exact (proj2 HJ).
Qed.

End Work.

(** ** The range of the elevations *)

Lemma aligned_corner (n row col : Z) :
  1 <= n -> in_grid (2 ^ n + 1) row col ->
  aligned (pow2 (S (Z.to_nat (n - 1)))) row col -> grid_corner n row col.
Proof.
  intros Hn [Hr Hc] [Dr Dc].
  assert (E : pow2 (S (Z.to_nat (n - 1))) = 2 ^ n).
  { rewrite <- (pow2_of_Z n) by lia. f_equal. lia. }
  rewrite E in Dr, Dc.
  assert (Hpos : 0 < 2 ^ n) by (apply Z.pow_pos_nonneg; lia).
  destruct Dr as [a ->], Dc as [b ->]. unfold grid_corner.
  assert (a = 0 \/ a = 1) by nia. assert (b = 0 \/ b = 1) by nia. nia.
Qed.

Section Range.

Context {G : Type} `{RandomSource G}.

Lemma start_post_range (n rho : Z) (g : G) (st0 : state G) :
  0 <= n -> start_post n rho g st0 ->
  forall row col v,
    in_grid (2 ^ n + 1) row col ->
    hm_get (heightmap st0) row col = Some v -> 0 <= v <= 256.
Proof.
  intros Hn (c1 & c2 & c3 & c4 & hm1 & hm2 & hm3 & _ & (R1 & R2 & R3 & R4)
             & (S1 & S2 & S3 & S4) & _) row col v Hin Hv.
  rewrite (proj2 S4 _ _ Hin) in Hv.
  destruct (bool_decide _); [injection Hv as <-; lia|].
  rewrite (proj2 S3 _ _ Hin) in Hv.
  destruct (bool_decide _); [injection Hv as <-; lia|].
  rewrite (proj2 S2 _ _ Hin) in Hv.
  destruct (bool_decide _); [injection Hv as <-; lia|].
  rewrite (proj2 S1 _ _ Hin) in Hv.
  destruct (bool_decide _); [injection Hv as <-; lia|].
  rewrite (hm_get_zeros _ _ _ Hin) in Hv. injection Hv as <-. lia.
Qed.

Lemma pass_range (N : Z) (k : nat) (st : state G) (r : region)
    (rest : list region) (st1 : state G) (rho B : Z) :
  good_at N (S k) r -> 0 <= roughness r <= rho ->
  iteration_post (N + 1) st r rest st1 ->
  (forall row col v, in_grid (N + 1) row col ->
                     aligned (pow2 (S k)) row col ->
                     hm_get (heightmap st) row col = Some v ->
                     - B <= v <= 256 + B) ->
  (forall row col v, in_grid (N + 1) row col ->
                     hm_get (heightmap st) row col = Some v ->
                     - (B + rho) <= v <= 256 + B + rho) ->
  forall row col v, in_grid (N + 1) row col ->
                    hm_get (heightmap st1) row col = Some v ->
                    - (B + rho) <= v <= 256 + B + rho.
Proof.
  intros Hg Hrr Hp Hcorner Hall row col v Hin Hv.
  assert (Hreads : forall a b w, In (a, b) (region_reads r) ->
                                 hm_get (heightmap st) a b = Some w ->
                                 - B <= w <= 256 + B).
  { intros a b w Hab. apply Hcorner.
    - exact (region_reads_in_grid _ _ _ _ _ Hg Hab).
    - exact (reads_aligned _ _ _ _ _ Hg Hab). }
  destruct Hp as (tl & tr & bl & br & n1 & n2 & n3 & n4 & n5
                  & hm1 & hm2 & hm3 & hm4
                  & (Rtl & Rtr & Rbl & Rbr) & (N1 & N2 & N3 & N4 & N5)
                  & (W1 & W2 & W3 & W4 & W5) & _).
  apply Hreads in Rtl; [|unfold region_reads; simpl; auto 10].
  apply Hreads in Rtr; [|unfold region_reads; simpl; auto 10].
  apply Hreads in Rbl; [|unfold region_reads; simpl; auto 10].
  apply Hreads in Rbr; [|unfold region_reads; simpl; auto 10].
  rewrite (proj2 W5 _ _ Hin) in Hv.
  destruct (bool_decide _); [injection Hv as <-; zlia|].
  rewrite (proj2 W4 _ _ Hin) in Hv.
  destruct (bool_decide _); [injection Hv as <-; zlia|].
  rewrite (proj2 W3 _ _ Hin) in Hv.
  destruct (bool_decide _); [injection Hv as <-; zlia|].
  rewrite (proj2 W2 _ _ Hin) in Hv.
  destruct (bool_decide _); [injection Hv as <-; zlia|].
  rewrite (proj2 W1 _ _ Hin) in Hv.
  destruct (bool_decide _); [injection Hv as <-; zlia|].
  exact (Hall _ _ _ Hin Hv).
Qed.

Lemma run_range (n rho : Z) (g : G) :
  1 <= n -> 0 <= rho ->
  exists st',
    run (fuel_of n) n rho g = Some (Ok st') /\
    shape (2 ^ n + 1) (heightmap st') /\
    forall row col v,
      in_grid (2 ^ n + 1) row col ->
      hm_get (heightmap st') row col = Some v ->
      - (n * rho) <= v <= 256 + n * rho.
Proof.
  intros Hn Hrho.
  destruct (run_ok n rho g Hn Hrho) as (st0 & st' & _ & Hpost & Hsteps & _ & Hrun & _).
  pose proof (start_post_shape _ _ _ _ Hpost) as Hshape0.
  pose proof (start_post_range n rho g st0 ltac:(lia) Hpost) as Hrange0.
  assert (Hq0 : q st0 = [Region 0 0 (2 ^ n) (2 ^ n) rho]).
  { destruct Hpost as (c1 & c2 & c3 & c4 & hm1 & hm2 & hm3 & _ & _ & _ & Hq & _).
    exact Hq. }
  exists st'. split; [exact Hrun|].
  set (B := fun k : nat => (n - 1 - Z.of_nat k) * rho).
  set (J := fun (k : nat) (st : state G) =>
    (forall c, In c (q st) -> 0 <= roughness c <= rho) /\
    shape (2 ^ n + 1) (heightmap st) /\
    (forall row col v, in_grid (2 ^ n + 1) row col ->
                       aligned (pow2 (S k)) row col ->
                       hm_get (heightmap st) row col = Some v ->
                       - B k <= v <= 256 + B k) /\
    (forall row col v, in_grid (2 ^ n + 1) row col ->
                       hm_get (heightmap st) row col = Some v ->
                       - (B k + rho) <= v <= 256 + B k + rho)).
  assert (HJ : J 0%nat st').
  { refine (steps_invariant n J _ _ _ _ _ _ Hsteps _).
    - intros k k' st Hle (HA & Hsh & HB & HC).
      assert (HBk : B k' = B k + (Z.of_nat k - Z.of_nat k') * rho)
        by (unfold B; ring).
      split_and!; [exact HA|exact Hsh| |].
      + intros row col v Hin Hal Hv.
        destruct (decide (k' = k)) as [->|Hne]; [eauto|].
        pose proof (HC _ _ _ Hin Hv).
        assert (rho <= (Z.of_nat k - Z.of_nat k') * rho) by nia. lia.
      + intros row col v Hin Hv. pose proof (HC _ _ _ Hin Hv).
        assert (0 <= (Z.of_nat k - Z.of_nat k') * rho) by nia. lia.
    - intros k st r rest st1 (HA & Hsh & HB & HC) Hq Hg _ Hp.
      assert (Hrr : 0 <= roughness r <= rho)
        by (apply HA; rewrite Hq; left; reflexivity).
      pose proof (iteration_post_q _ _ _ _ _ Hp) as Hq1.
      split_and!.
      + intros c Hc. rewrite Hq1 in Hc. apply in_app_or in Hc as [Hc|Hc].
        * apply HA. rewrite Hq. right. exact Hc.
        * destruct (2 <? y1 r - y0 r); [|destruct Hc].
          rewrite (children_roughness _ _ Hc). zlia.
      + exact (iteration_post_shape _ _ _ _ _ Hp).
      + intros row col v Hin Hal Hv.
        rewrite (iteration_post_frame _ _ _ _ _ _ _ Hp Hin) in Hv
          by exact (aligned_not_written _ _ _ _ _ Hg Hal).
        exact (HB _ _ _ Hin Hal Hv).
      + exact (pass_range _ _ _ _ _ _ _ _ Hg Hrr Hp HB HC).
    - assert (HB0 : B (Z.to_nat (n - 1)) = 0) by (unfold B; nia).
      split_and!.
      + intros c Hc. rewrite Hq0 in Hc. destruct Hc as [<-|[]]. simpl. lia.
      + exact Hshape0.
      + intros row col v Hin _ Hv. rewrite HB0.
        pose proof (Hrange0 _ _ _ Hin Hv). lia.
      + intros row col v Hin Hv. rewrite HB0.
        pose proof (Hrange0 _ _ _ Hin Hv). lia. }
  destruct HJ as (_ & Hsh & _ & HC). split; [exact Hsh|].
  intros row col v Hin Hv. pose proof (HC _ _ _ Hin Hv) as Hb.
  unfold B in Hb. replace ((n - 1 - Z.of_nat 0) * rho + rho) with (n * rho) in Hb
    by (simpl; ring).
  lia.
Qed.

(** For [n >= 1] and a roughness [rho >= 0] in the range in which the
    float64 cells are exact, every cell of the returned grid holds an
    elevation between [-(n * rho)] and [256 + n * rho], an integer of
    magnitude at most 2^51, which float64 holds exactly; with roughness 0
    the elevations stay within the range [0..256] of the seeds. *)
Theorem elevations_bounded (n rho : Z) (g : G) :
  1 <= n -> exact_float64 n rho ->
  exists hm,
    midpoint_displacement_2d (fuel_of n) n rho g = Some (Ok hm) /\
    forall row col,
      in_grid (2 ^ n + 1) row col ->
      exists v, hm_get hm row col = Some v /\
                - (n * rho) <= v <= 256 + n * rho /\
                Z.abs v <= 2 ^ 51 /\
                (rho = 0 -> 0 <= v <= 256).
Proof.
  intros Hn [Hrho Hex]. rewrite Z.max_r in Hex by lia.
  destruct (run_range n rho g Hn Hrho) as (st' & Hrun & Hsh & Hb).
  exists (heightmap st'). unfold midpoint_displacement_2d. rewrite Hrun.
  split; [reflexivity|].
  intros row col Hin. destruct (hm_get_in _ _ _ _ Hsh Hin) as [v Hv].
  exists v. split; [exact Hv|]. pose proof (Hb _ _ _ Hin Hv).
  assert (Hnr : 0 <= n * rho) by (apply Z.mul_nonneg_nonneg; lia).
  change (2 ^ 53) with (4 * 2 ^ 51) in Hex.
  split; [lia|]. split; [lia|]. intros ->. lia.
Qed.

End Range.

(** ** The exponent 0 *)

Section ExponentZero.

Context {G : Type} `{RandomSource G}.

(** With [n = 0] the grid is 2 by 2 and the single region has its midpoints
    on its own top-left corner: of the four seeds only the bottom-right one
    survives.  The top-left cell ends as the average of the four seeds, the
    top-right and bottom-left cells as the averages of the right and of the
    bottom pair, each plus a noise draw within the roughness.  The roughness
    is taken in the range in which the float64 cells are exact. *)
Theorem exponent_zero_grid (rho : Z) (g : G) :
  exact_float64 0 rho ->
  exists c1 c2 c3 c4 n2 n4 n5,
    corner_seeds g = (c1, c2, c3, c4) /\
    (- rho <= n2 <= rho /\ - rho <= n4 <= rho /\ - rho <= n5 <= rho) /\
    midpoint_displacement_2d 2 0 rho g
    = Some (Ok [[(c1 + c3 + c2 + c4) / 4 + n5; (c2 + c4) / 2 + n2];
                [(c3 + c4) / 2 + n4; c4]]).
Proof.
  intros [Hrho _].
  destruct (start_ok 0 rho g) as (st0 & Hstart & Hpost); [lia|].
  pose proof (start_post_shape _ _ _ _ Hpost) as Hshape.
  destruct Hpost as (c1 & c2 & c3 & c4 & hm1 & hm2 & hm3 & Hc & _
                     & (S1 & S2 & S3 & S4) & Hq & _).
  change (2 ^ 0) with 1 in *. change (1 + 1) with 2 in *.
  destruct (iteration_ok 2 st0 _ [] Hq Hshape) as (st1 & Hit & Hp);
    simpl; try lia.
  pose proof (iteration_post_shape _ _ _ _ _ Hp) as Hshape1.
  destruct Hp as (tl & tr & bl & br & n1 & n2 & n3 & n4 & n5
                  & hm4 & hm5 & hm6 & hm7
                  & (Rtl & Rtr & Rbl & Rbr) & (N1 & N2 & N3 & N4 & N5)
                  & (W1 & W2 & W3 & W4 & W5) & Hq1 & _).
  cbn [x0 y0 x1 y1 roughness] in *.
  change ((0 + 1) / 2) with 0 in *.
  assert (Etl : hm_get (heightmap st0) 0 0 = Some c1) by (chase; reflexivity).
  assert (Etr : hm_get (heightmap st0) 0 1 = Some c2) by (chase; reflexivity).
  assert (Ebl : hm_get (heightmap st0) 1 0 = Some c3) by (chase; reflexivity).
  assert (Ebr : hm_get (heightmap st0) 1 1 = Some c4) by (chase; reflexivity).
  rewrite Etl in Rtl. rewrite Etr in Rtr. rewrite Ebl in Rbl. rewrite Ebr in Rbr.
  injection Rtl as <-. injection Rtr as <-.
  injection Rbl as <-. injection Rbr as <-.
  exists c1, c2, c3, c4, n2, n4, n5.
  split; [exact Hc|]. split; [auto|].
  unfold midpoint_displacement_2d, run. rewrite Hstart. simpl.
  rewrite Hq, Hit, Hq1. f_equal. f_equal.
  apply (grid_ext 2); [exact Hshape1| |].
  - split; [reflexivity|]. intros line Hin. simpl in Hin.
    repeat (destruct Hin as [<-|Hin]; [reflexivity|]). destruct Hin.
  - intros r c [Hr Hcc].
    assert (Cr : r = 0 \/ r = 1) by lia.
    assert (Cc : c = 0 \/ c = 1) by lia.
    destruct Cr as [-> | ->]; destruct Cc as [-> | ->];
      chase; try rewrite Ebr; reflexivity.
Qed.

End ExponentZero.

(** ** Clipping at the sea level

    [plot_terrain(heightmap, sea_level)] first clips the array it is given,
    in place ([heightmap[heightmap < sea_level] = sea_level], line 104), and
    then draws it.  The drawing has no effect on the data of the program and
    is not modelled: [plot_terrain] below is the caller's array after the
    call. *)

Definition plot_terrain (heightmap : grid) (sea_level : Z) : grid :=
  map (map (fun v => if v <? sea_level then sea_level else v)) heightmap.

Lemma clip_max (sea_level v : Z) :
  (if v <? sea_level then sea_level else v) = Z.max sea_level v.
Proof. destruct (Z.ltb_spec v sea_level); lia. Qed.

Lemma hm_get_plot_terrain (hm : grid) (sea_level row col : Z) :
  hm_get (plot_terrain hm sea_level) row col
  = Z.max sea_level <$> hm_get hm row col.
Proof.
  unfold hm_get, plot_terrain. rewrite length_map.
  destruct (norm_index (Z.of_nat (length hm)) row) as [i|]; [|reflexivity].
  rewrite list_lookup_fmap.
  destruct (hm !! i) as [line|]; [|reflexivity]. simpl.
  rewrite length_map.
  destruct (norm_index (Z.of_nat (length line)) col) as [j|]; [|reflexivity].
  rewrite list_lookup_fmap.
  destruct (line !! j) as [v|]; [|reflexivity]. simpl.
  rewrite clip_max. reflexivity.
Qed.

(** The clipping is done in place, so it accumulates over calls: plotting
    the same array at sea level [a] and then at sea level [b] leaves it
    clipped at the larger of the two, whatever the order; in particular a
    second plot at a lower sea level shows the terrain clipped at the first
    one. *)
Theorem plot_terrain_twice (hm : grid) (a b : Z) :
  plot_terrain (plot_terrain hm a) b = plot_terrain hm (Z.max a b) /\
  plot_terrain (plot_terrain hm a) b = plot_terrain (plot_terrain hm b) a /\
  (b <= a -> plot_terrain (plot_terrain hm a) b = plot_terrain hm a).
Proof.
  assert (E : forall a b, plot_terrain (plot_terrain hm a) b
                          = plot_terrain hm (Z.max a b)).
  { intros a' b'. unfold plot_terrain. rewrite map_map.
    apply map_ext. intros line. rewrite map_map. apply map_ext. intros v.
    rewrite !clip_max. lia. }
  split_and!.
  - apply E.
  - rewrite !E. f_equal. lia.
  - intros Hba. rewrite E. f_equal. lia.
Qed.

Section Pipeline.

Context {G : Type} `{RandomSource G}.

(** The flow of the script: a terrain generated with [n >= 1] and a
    roughness [rho >= 0] in the range in which the float64 cells are exact,
    and then plotted at an integer sea level that float64 holds exactly,
    has every elevation between the sea level and the larger of the sea
    level and [256 + n * rho]. *)
Theorem plotted_terrain_range (n rho sea_level : Z) (g : G) :
  1 <= n -> exact_float64 n rho -> Z.abs sea_level <= 2 ^ 53 ->
  exists hm,
    midpoint_displacement_2d (fuel_of n) n rho g = Some (Ok hm) /\
    forall row col,
      in_grid (2 ^ n + 1) row col ->
      exists v,
        hm_get (plot_terrain hm sea_level) row col = Some v /\
        sea_level <= v <= Z.max sea_level (256 + n * rho).
Proof.
  intros Hn [Hrho _] _.
  destruct (run_range n rho g Hn Hrho) as (st' & Hrun & Hsh & Hb).
  exists (heightmap st'). unfold midpoint_displacement_2d. rewrite Hrun.
  split; [reflexivity|].
  intros row col Hin. destruct (hm_get_in _ _ _ _ Hsh Hin) as [v Hv].
  pose proof (Hb _ _ _ Hin Hv).
  exists (Z.max sea_level v). rewrite hm_get_plot_terrain, Hv.
  split; [reflexivity|]. lia.
Qed.

End Pipeline.

(** ** What is asked of the random source *)

Lemma in_seed_log_draw (n rho c1 c2 c3 c4 : Z) o lo hi v :
  In (o, Draw lo hi v) (seed_log n rho c1 c2 c3 c4) ->
  o = None /\ lo = 0 /\ hi = 256 /\ In v [c1; c2; c3; c4].
Proof.
  unfold seed_log. intros Hin.
  apply in_map_iff in Hin as (a & [= <- Ea] & Hin). subst a. simpl in Hin.
  repeat (destruct Hin as [E|Hin];
          [first [ discriminate E
                 | injection E as <- <- <-; simpl; auto 10 ]|]).
  destruct Hin.
Qed.

Section Requests.

Context {G : Type} `{RandomSource G}.

(** In a run with [n >= 1] and initial roughness [rho >= 0] the random
    source is never asked for an empty range: the four draws made before
    the loop ask for [0..256], every draw made while a region [r] is
    processed asks for [-roughness r .. roughness r] with
    [0 <= roughness r <= rho], and every number drawn lies in the range
    asked for. *)
Theorem draw_requests (n rho : Z) (g : G) :
  1 <= n -> 0 <= rho ->
  exists st',
    run (fuel_of n) n rho g = Some (Ok st') /\
    forall o lo hi v,
      In (o, Draw lo hi v) (trace st') ->
      lo <= v <= hi /\
      match o with
      | None => lo = 0 /\ hi = 256
      | Some r => lo = - roughness r /\ hi = roughness r /\
                  0 <= roughness r <= rho
      end.
Proof.
  intros Hn Hrho.
  destruct (run_ok n rho g Hn Hrho) as (st0 & st' & _ & Hpost & Hsteps & _ & Hrun & _).
  destruct Hpost as (c1 & c2 & c3 & c4 & hm1 & hm2 & hm3 & _ & (R1 & R2 & R3 & R4)
                     & _ & Hq0 & Htr0).
  exists st'. split; [exact Hrun|].
  set (P := fun (o : option region) (lo hi v : Z) =>
              lo <= v <= hi /\
              match o with
              | None => lo = 0 /\ hi = 256
              | Some r => lo = - roughness r /\ hi = roughness r /\
                          0 <= roughness r <= rho
              end).
  assert (HJ : (forall c, In c (q st') -> 0 <= roughness c <= rho) /\
               (forall o lo hi v, In (o, Draw lo hi v) (trace st') -> P o lo hi v)).
  { refine (steps_invariant n
              (fun _ st =>
                 (forall c, In c (q st) -> 0 <= roughness c <= rho) /\
                 (forall o lo hi v, In (o, Draw lo hi v) (trace st) ->
                                    P o lo hi v))
              _ _ _ _ _ _ Hsteps _).
    - intros k k' st _ HJ. exact HJ.
    - intros k st r rest st1 [HA HD] Hq Hg _ Hp.
      assert (Hrr : 0 <= roughness r <= rho)
        by (apply HA; rewrite Hq; left; reflexivity).
      pose proof (iteration_post_q _ _ _ _ _ Hp) as Hq1.
      destruct (iteration_post_trace _ _ _ _ _ Hp)
        as (n1 & n2 & n3 & n4 & n5 & (N1 & N2 & N3 & N4 & N5) & Htr).
      split.
      + intros c Hc. rewrite Hq1 in Hc. apply in_app_or in Hc as [Hc|Hc].
        * apply HA. rewrite Hq. right. exact Hc.
        * destruct (2 <? y1 r - y0 r); [|destruct Hc].
          rewrite (children_roughness _ _ Hc). zlia.
      + intros o lo hi v Hin. rewrite Htr in Hin.
        apply in_app_or in Hin as [Hin|Hin]; [auto|].
        apply in_block_draw in Hin as (-> & -> & -> & Hv).
        unfold P. split; [|auto]. simpl in Hv.
        repeat (destruct Hv as [<-|Hv]; [assumption|]). destruct Hv.
    - split.
      + intros c Hc. rewrite Hq0 in Hc. destruct Hc as [<-|[]]. simpl. lia.
      + intros o lo hi v Hin. rewrite Htr0 in Hin.
        apply in_seed_log_draw in Hin as (-> & -> & -> & Hv).
        unfold P. split; [|auto]. simpl in Hv.
        repeat (destruct Hv as [<-|Hv]; [assumption|]). destruct Hv. }
  exact (proj2 HJ).
Qed.

End Requests.

(** ** Cells assigned twice *)

Lemma writers_level (N : Z) (k1 k2 : nat) (r1 r2 : region) (row col : Z) :
  good_at N (S k1) r1 -> good_at N (S k2) r2 ->
  In (row, col) (region_writes r1) -> In (row, col) (region_writes r2) ->
  k1 = k2.
Proof.
  intros G1 G2 W1 W2.
  destruct (Nat.lt_trichotomy k1 k2) as [Hlt|[Heq|Hlt]]; [|exact Heq|]; exfalso.
  - apply (writes_unaligned _ _ _ _ _ G1 W1).
    apply (aligned_le _ k2); [lia|].
    exact (writes_aligned_half _ _ _ _ _ G2 W2).
  - apply (writes_unaligned _ _ _ _ _ G2 W2).
    apply (aligned_le _ k1); [lia|].
    exact (writes_aligned_half _ _ _ _ _ G1 W1).
Qed.

Lemma writers_adjacent (N : Z) (k : nat) (r1 r2 : region) (row col : Z) :
  good_at N (S k) r1 -> good_at N (S k) r2 ->
  In (row, col) (region_writes r1) -> In (row, col) (region_writes r2) ->
  (x0 r1 = x0 r2 /\ y0 r1 = y0 r2) \/
  (y0 r1 = y0 r2 /\ (x0 r1 = x1 r2 \/ x1 r1 = x0 r2)) \/
  (x0 r1 = x0 r2 /\ (y0 r1 = y1 r2 \/ y1 r1 = y0 r2)).
Proof.
  intros (Hx1 & Hy1 & Dx1 & Dy1 & _) (Hx2 & Hy2 & Dx2 & Dy2 & _) W1 W2.
  pose proof (pow2_pos (S k)) as Hs.
  pose proof (divide_apart _ _ _ Hs Dx1 Dx2) as Ax.
  pose proof (divide_apart _ _ _ Hs Dy1 Dy2) as Ay.
  clear Dx1 Dy1 Dx2 Dy2.
  rewrite pow2_S in Hx1, Hy1, Hx2, Hy2, Ax, Ay, Hs.
  set (h := pow2 k) in *.
  assert (Hcx1 : (x0 r1 + x1 r1) / 2 = x0 r1 + h) by (apply midpoint; lia).
  assert (Hcy1 : (y0 r1 + y1 r1) / 2 = y0 r1 + h) by (apply midpoint; lia).
  assert (Hcx2 : (x0 r2 + x1 r2) / 2 = x0 r2 + h) by (apply midpoint; lia).
  assert (Hcy2 : (y0 r2 + y1 r2) / 2 = y0 r2 + h) by (apply midpoint; lia).
  unfold region_writes in W1, W2. cbv zeta in W1, W2.
  rewrite Hcx1, Hcy1 in W1. rewrite Hcx2, Hcy2 in W2.
  simpl in W1, W2.
  destruct W1 as [W1|[W1|[W1|[W1|[W1|[]]]]]]; injection W1 as <- <-;
    destruct W2 as [W2|[W2|[W2|[W2|[W2|[]]]]]]; injection W2 as E1 E2; lia.
Qed.

Section Overwrites.

Context {G : Type} `{RandomSource G}.

(** When two passes assign the same cell, their regions have the same side
    and the same roughness, and they are the same region or two adjacent
    ones, side by side or one above the other: a cell is assigned twice
    only as the midpoint of an edge shared by two neighbouring regions of
    one level. *)
Theorem double_writes_are_shared_edges (n rho : Z) (g : G) :
  1 <= n -> 0 <= rho ->
  exists st',
    run (fuel_of n) n rho g = Some (Ok st') /\
    forall r1 r2 row col,
      In (Some r1, Write row col) (trace st') ->
      In (Some r2, Write row col) (trace st') ->
      x1 r1 - x0 r1 = x1 r2 - x0 r2 /\
      roughness r1 = roughness r2 /\
      (r1 = r2 \/
       (y0 r1 = y0 r2 /\ (x0 r1 = x1 r2 \/ x1 r1 = x0 r2)) \/
       (x0 r1 = x0 r2 /\ (y0 r1 = y1 r2 \/ y1 r1 = y0 r2))).
Proof.
  intros Hn Hrho.
  destruct (run_ok n rho g Hn Hrho) as (st0 & st' & _ & Hpost & Hsteps & _ & Hrun & _).
  destruct Hpost as (c1 & c2 & c3 & c4 & hm1 & hm2 & hm3 & _ & _ & _ & Hq0 & Htr0).
  exists st'. split; [exact Hrun|].
  assert (HJ : (forall c, In c (q st') -> decayed n rho c) /\
               (forall r row col,
                   In (Some r, Write row col) (trace st') ->
                   (exists k, good_at (2 ^ n) (S k) r) /\
                   In (row, col) (region_writes r) /\ decayed n rho r)).
  { refine (steps_invariant n
              (fun _ st =>
                 (forall c, In c (q st) -> decayed n rho c) /\
                 (forall r row col,
                     In (Some r, Write row col) (trace st) ->
                     (exists k, good_at (2 ^ n) (S k) r) /\
                     In (row, col) (region_writes r) /\ decayed n rho r))
              _ _ _ _ _ _ Hsteps _).
    - intros k k' st _ HJ. exact HJ.
    - intros k st r rest st1 [Hqs Hws] Hq Hg _ Hp.
      assert (Hr : decayed n rho r) by (apply Hqs; rewrite Hq; left; reflexivity).
      pose proof (iteration_post_q _ _ _ _ _ Hp) as Hq1.
      destruct (iteration_post_trace _ _ _ _ _ Hp)
        as (n1 & n2 & n3 & n4 & n5 & _ & Htr).
      split.
      + intros c Hc. rewrite Hq1 in Hc. apply in_app_or in Hc as [Hc|Hc].
        * apply Hqs. rewrite Hq. right. exact Hc.
        * destruct (2 <? y1 r - y0 r) eqn:Et; [|destruct Hc].
          exact (children_decayed _ _ _ _ _ _ Hg Hr Et Hc).
      + intros r' row col Hin. rewrite Htr in Hin.
        apply in_app_or in Hin as [Hin|Hin]; [eauto|].
        apply in_block_write in Hin as ([= ->] & Hw). eauto.
    - split.
      + intros c Hc. rewrite Hq0 in Hc. destruct Hc as [<-|[]].
        apply root_decayed.
      + intros r row col Hin. rewrite Htr0 in Hin.
        apply in_seed_log in Hin as [[=] _]. }
  destruct HJ as [_ Hw].
  intros r1 r2 row col H1 H2.
  destruct (Hw _ _ _ H1) as ([k1 G1] & W1 & (d1 & S1 & R1)).
  destruct (Hw _ _ _ H2) as ([k2 G2] & W2 & (d2 & S2 & R2)).
  pose proof (writers_level _ _ _ _ _ _ _ G1 G2 W1 W2) as <-.
  pose proof (writers_adjacent _ _ _ _ _ _ G1 G2 W1 W2) as Hadj.
  pose proof G1 as (Hx1 & Hy1 & _). pose proof G2 as (Hx2 & Hy2 & _).
  pose proof (pow2_pos (S k1)) as Hs.
  assert (Hd : 2 ^ Z.of_nat d1 = 2 ^ Z.of_nat d2).
  { rewrite Hx1 in S1. rewrite Hx2 in S2. nia. }
  assert (Hrr : roughness r1 = roughness r2) by (rewrite R1, R2, Hd; reflexivity).
  split_and!; [lia|exact Hrr|].
  destruct Hadj as [[Ex Ey]|[Ha|Ha]]; [left|right; left; exact Ha|right; right; exact Ha].
  destruct r1 as [a1 b1 a1' b1' q1], r2 as [a2 b2 a2' b2' q2].
  simpl in *. f_equal; lia.
Qed.

End Overwrites.

(** ** The further properties at concrete inputs *)

Lemma output_shape_witness :
  0 <= 2 /\ exact_float64 2 4 /\ (fuel_of 2 < 17)%nat /\
  exists hm,
    midpoint_displacement_2d 17 2 4 [10; 20; 30; 40; 3; 1; 4; 1; 5]
    = Some (Ok hm) /\
    Z.of_nat (length hm) = 2 ^ 2 + 1 /\
    forall line, In line hm -> Z.of_nat (length line) = 2 ^ 2 + 1.
Proof.
  assert (Hexact : exact_float64 2 4) by (unfold exact_float64; simpl; lia).
  split; [lia|]. split; [exact Hexact|]. split; [vm_compute; lia|].
  apply (output_shape (G := list Z) 2 4); [lia|exact Hexact|vm_compute; lia].
Defined.

Lemma breadth_first_log_witness :
  1 <= 2 /\ 0 <= 4 /\
  exists st',
    run (fuel_of 2) 2 4 [10; 20; 30; 40; 3; 1; 4; 1; 5] = Some (Ok st') /\
    rw (trace st')
    = map (pair None)
        [Write 0 0; Write 0 (2 ^ 2); Write (2 ^ 2) 0; Write (2 ^ 2) (2 ^ 2)]
      ++ flat_map region_accesses
           (levels (Z.to_nat 2) [Region 0 0 (2 ^ 2) (2 ^ 2) 4]).
Proof.
  split; [lia|]. split; [lia|].
  apply (breadth_first_log (G := list Z) 2 4); lia.
Defined.

Lemma work_done_witness :
  1 <= 2 /\ 0 <= 4 /\
  exists st' passes,
    run (fuel_of 2) 2 4 [10; 20; 30; 40; 3; 1; 4; 1; 5] = Some (Ok st') /\
    3 * passes = 4 ^ 2 - 1 /\
    count_kind is_read (trace st') = 4 * passes /\
    count_kind is_write (trace st') = 4 + 5 * passes /\
    count_kind is_draw (trace st') = 4 + 5 * passes.
Proof.
  split; [lia|]. split; [lia|].
  apply (work_done (G := list Z) 2 4); lia.
Defined.

Lemma roughness_by_side_witness :
  1 <= 3 /\ 0 <= 11 /\
  exists st',
    run (fuel_of 3) 3 11 [10; 20; 30; 40; 3; 1; 4; 1; 5] = Some (Ok st') /\
    forall o c,
      In (o, Enqueue c) (trace st') ->
      exists d : nat,
        (x1 c - x0 c) * 2 ^ Z.of_nat d = 2 ^ 3 /\
        roughness c = 11 / 2 ^ Z.of_nat d.
Proof.
  split; [lia|]. split; [lia|].
  apply (roughness_by_side (G := list Z) 3 11); lia.
Defined.

Lemma elevations_bounded_witness :
  1 <= 2 /\ exact_float64 2 4 /\
  exists hm,
    midpoint_displacement_2d (fuel_of 2) 2 4 [10; 20; 30; 40; 3; 1; 4; 1; 5]
    = Some (Ok hm) /\
    forall row col,
      in_grid (2 ^ 2 + 1) row col ->
      exists v, hm_get hm row col = Some v /\
                - (2 * 4) <= v <= 256 + 2 * 4 /\
                Z.abs v <= 2 ^ 51 /\
                (4 = 0 -> 0 <= v <= 256).
Proof.
  assert (Hexact : exact_float64 2 4) by (unfold exact_float64; simpl; lia).
  split; [lia|]. split; [exact Hexact|].
  apply (elevations_bounded (G := list Z) 2 4); [lia|exact Hexact].
Defined.

Lemma exponent_zero_grid_witness :
  exact_float64 0 3 /\
  exists c1 c2 c3 c4 n2 n4 n5,
    corner_seeds [10; 20; 30; 40; 3; 1; 4; 1; 5] = (c1, c2, c3, c4) /\
    (- 3 <= n2 <= 3 /\ - 3 <= n4 <= 3 /\ - 3 <= n5 <= 3) /\
    midpoint_displacement_2d 2 0 3 [10; 20; 30; 40; 3; 1; 4; 1; 5]
    = Some (Ok [[(c1 + c3 + c2 + c4) / 4 + n5; (c2 + c4) / 2 + n2];
                [(c3 + c4) / 2 + n4; c4]]).
Proof.
  assert (Hexact : exact_float64 0 3) by (unfold exact_float64; simpl; lia).
  split; [exact Hexact|].
  apply (exponent_zero_grid (G := list Z) 3). exact Hexact.
Defined.

Lemma plotted_terrain_range_witness :
  1 <= 2 /\ exact_float64 2 4 /\ Z.abs 25 <= 2 ^ 53 /\
  exists hm,
    midpoint_displacement_2d (fuel_of 2) 2 4 [10; 20; 30; 40; 3; 1; 4; 1; 5]
    = Some (Ok hm) /\
    forall row col,
      in_grid (2 ^ 2 + 1) row col ->
      exists v,
        hm_get (plot_terrain hm 25) row col = Some v /\
        25 <= v <= Z.max 25 (256 + 2 * 4).
Proof.
  assert (Hexact : exact_float64 2 4) by (unfold exact_float64; simpl; lia).
  assert (Hsea : Z.abs 25 <= 2 ^ 53) by (simpl; lia).
  split; [lia|]. split; [exact Hexact|]. split; [exact Hsea|].
  apply (plotted_terrain_range (G := list Z) 2 4 25); [lia|exact Hexact|exact Hsea].
Defined.

Lemma draw_requests_witness :
  1 <= 2 /\ 0 <= 4 /\
  exists st',
    run (fuel_of 2) 2 4 [10; 20; 30; 40; 3; 1; 4; 1; 5] = Some (Ok st') /\
    forall o lo hi v,
      In (o, Draw lo hi v) (trace st') ->
      lo <= v <= hi /\
      match o with
      | None => lo = 0 /\ hi = 256
      | Some r => lo = - roughness r /\ hi = roughness r /\
                  0 <= roughness r <= 4
      end.
Proof.
  split; [lia|]. split; [lia|].
  apply (draw_requests (G := list Z) 2 4); lia.
Defined.

Lemma double_writes_are_shared_edges_witness :
  1 <= 2 /\ 0 <= 4 /\
  exists st',
    run (fuel_of 2) 2 4 [10; 20; 30; 40; 3; 1; 4; 1; 5] = Some (Ok st') /\
    forall r1 r2 row col,
      In (Some r1, Write row col) (trace st') ->
      In (Some r2, Write row col) (trace st') ->
      x1 r1 - x0 r1 = x1 r2 - x0 r2 /\
      roughness r1 = roughness r2 /\
      (r1 = r2 \/
       (y0 r1 = y0 r2 /\ (x0 r1 = x1 r2 \/ x1 r1 = x0 r2)) \/
       (x0 r1 = x0 r2 /\ (y0 r1 = y1 r2 \/ y1 r1 = y0 r2))).
Proof.
  split; [lia|]. split; [lia|].
  apply (double_writes_are_shared_edges (G := list Z) 2 4); lia.
Defined.
